(** * Material Icons sprite generator: a shallow embedding

    The development follows [assets/generate_icon_sprite.py] function by
    function.  Python floats are IEEE-754 binary64 values and are modelled by
    Rocq's primitive floats; strings are sequences of code points below 256;
    exceptions are an explicit error result; the attribute dictionary of an
    XML element is an insertion-ordered association list.

    What the script takes from Python's runtime and from ElementTree
    ([float(str)], [str(float)], [ET.fromstring], [ET.tostring], and the
    room on the interpreter's stack) is gathered in the record [runtime];
    every definition and theorem is parametric in it. *)

From Stdlib Require Import ZArith List String Ascii Bool Lia DecimalString.
From Stdlib Require Import QArith Qfield Qround Lqa.
From Stdlib Require Import Floats.
From Stdlib Require Import Sorted Permutation OrderedTypeEx.
Import ListNotations.

Local Open Scope string_scope.
Local Open Scope list_scope.
Local Open Scope Z_scope.

(** ** Exceptions *)

Inductive exn : Type :=
| ValueError
| OverflowError
| ZeroDivisionError
| RecursionError
| ParseError.

Inductive result (A : Type) : Type :=
| Ok (a : A)
| Raise (e : exn).

Arguments Ok {A} a.
Arguments Raise {A} e.

Definition bind {A B : Type} (r : result A) (k : A -> result B) : result B :=
  match r with
  | Ok a => k a
  | Raise e => Raise e
  end.

Notation "x <- r ;; k" := (bind r (fun x => k))
  (at level 61, r at next level, right associativity).

(** ** Strings: the [str] methods the script calls *)

Definition newline : ascii := "010"%char.

(** The double quote, as a one-character string. *)
Definition dq : string := String "034"%char EmptyString.

(** [str.isspace] on code points below 256. *)
Definition is_space (c : ascii) : bool :=
  let n := N_of_ascii c in
  (((9 <=? n) && (n <=? 13)) || ((28 <=? n) && (n <=? 32))
   || (n =? 133) || (n =? 160))%N.

Fixpoint lstrip (s : string) : string :=
  match s with
  | EmptyString => EmptyString
  | String c s' => if is_space c then lstrip s' else s
  end.

Fixpoint rstrip (s : string) : string :=
  match s with
  | EmptyString => EmptyString
  | String c s' =>
      match rstrip s' with
      | EmptyString => if is_space c then EmptyString else String c EmptyString
      | r => String c r
      end
  end.

(** [s.strip()] *)
Definition strip (s : string) : string := rstrip (lstrip s).

Definition snoc (s : string) (c : ascii) : string := s ++ String c EmptyString.

Fixpoint split_ws (s cur : string) : list string :=
  match s with
  | EmptyString => if (cur =? "")%string then [] else [cur]
  | String c s' =>
      if is_space c
      then (if (cur =? "")%string then split_ws s' "" else cur :: split_ws s' "")
      else split_ws s' (snoc cur c)
  end.

(** [s.split()]: the maximal runs of non-whitespace characters. *)
Definition py_split (s : string) : list string := split_ws s "".

Fixpoint split_at (sep : ascii) (s cur : string) : list string :=
  match s with
  | EmptyString => [cur]
  | String c s' =>
      if Ascii.eqb c sep then cur :: split_at sep s' ""
      else split_at sep s' (snoc cur c)
  end.

(** [s.split('\n')] *)
Definition split_lines (s : string) : list string := split_at newline s "".

(** [sep.join(l)] *)
Definition join (sep : string) (l : list string) : string := String.concat sep l.

(** [s.startswith(p)] *)
Definition startswith (s p : string) : bool := String.prefix p s.

(** [str(z)] for an [int]. *)
Definition str_of_int (z : Z) : string :=
  DecimalString.NilZero.string_of_int (Z.to_int z).

(** ** Numbers

    Python's arithmetic is dynamically typed: a number is an [int] or a
    [float].  The components of a viewBox are floats when the attribute was
    parsed and the ints 0, 0, 24, 24 of the literal fallback otherwise. *)

Inductive number : Type :=
| PyInt (z : Z)
| PyFloat (f : float).

(** [float(z)], correctly rounded.  Python raises [OverflowError] past the
    largest double, and divides two ints exactly before it rounds; the only
    ints the script computes with are the 0, 0, 24, 24 of the fallback
    viewBox, for which none of this matters.  What is stated about the
    arithmetic is stated for the viewBoxes [parse_viewbox] returns. *)
Definition float_of_int (z : Z) : float :=
  SF2Prim (binary_normalize prec emax z 0 false).

Definition to_float (n : number) : float :=
  match n with
  | PyInt z => float_of_int z
  | PyFloat f => f
  end.

(** [int(x)]: truncation towards zero; [int(nan)] raises [ValueError] and
    [int(inf)] raises [OverflowError]. *)
Definition int_of_float (f : float) : result Z :=
  match Prim2SF f with
  | S754_zero _ => Ok 0
  | S754_infinity _ => Raise OverflowError
  | S754_nan => Raise ValueError
  | S754_finite s m e => Ok (cond_Zopp s (Z.shiftl (Zpos m) e))
  end.

Definition py_int (n : number) : result Z :=
  match n with
  | PyInt z => Ok z
  | PyFloat f => int_of_float f
  end.

(** Comparison of an int with a float is exact in Python: [z] against
    [(-1)^s * m * 2^e]. *)
Definition compare_int_float (z : Z) (f : float) : option comparison :=
  match Prim2SF f with
  | S754_nan => None
  | S754_infinity s => Some (if s then Gt else Lt)
  | S754_zero _ => Some (z ?= 0)
  | S754_finite s m e =>
      Some (if 0 <=? e
            then z ?= cond_Zopp s (Z.shiftl (Zpos m) e)
            else Z.shiftl z (- e) ?= cond_Zopp s (Zpos m))
  end.

Definition num_compare (a b : number) : option comparison :=
  match a, b with
  | PyInt x, PyInt y => Some (x ?= y)
  | PyInt x, PyFloat g => compare_int_float x g
  | PyFloat f, PyInt y => option_map CompOpp (compare_int_float y f)
  | PyFloat f, PyFloat g => SFcompare (Prim2SF f) (Prim2SF g)
  end.

(** [a == b] *)
Definition num_eqb (a b : number) : bool :=
  match num_compare a b with
  | Some Eq => true
  | _ => false
  end.

(** [a >= b] *)
Definition num_geb (a b : number) : bool :=
  match num_compare a b with
  | Some Eq | Some Gt => true
  | _ => false
  end.

(** [-a], [a + b], [a * b]: int with int stays an int, anything else is
    computed on floats. *)
Definition num_neg (a : number) : number :=
  match a with
  | PyInt z => PyInt (- z)
  | PyFloat f => PyFloat (- f)%float
  end.

Definition num_add (a b : number) : number :=
  match a, b with
  | PyInt x, PyInt y => PyInt (x + y)
  | _, _ => PyFloat (to_float a + to_float b)%float
  end.

Definition num_mul (a b : number) : number :=
  match a, b with
  | PyInt x, PyInt y => PyInt (x * y)
  | _, _ => PyFloat (to_float a * to_float b)%float
  end.

(** [a / b]: true division; always a float, and [ZeroDivisionError] when
    [b == 0].  (For two ints Python rounds the exact quotient once, which is
    what dividing their floats does while both are below 2^53.) *)
Definition num_div (a b : number) : result number :=
  if num_eqb b (PyInt 0) then Raise ZeroDivisionError
  else Ok (PyFloat (to_float a / to_float b)%float).

Definition viewbox : Type := number * number * number * number.

(** The fallback [(0, 0, 24, 24)] of [parse_viewbox]: four ints. *)
Definition default_viewbox : viewbox := (PyInt 0, PyInt 0, PyInt 24, PyInt 24).

(** ** The arithmetic of the normalizer

    The normalizer only adds, multiplies, divides, negates and compares.
    [arith] is that interface; [py_arith] is what the script runs on and
    [Q_arith] is the same interface in exact rational arithmetic. *)

Record arith (A : Type) : Type :=
  { a_int : Z -> A;
    a_neg : A -> A;
    a_add : A -> A -> A;
    a_mul : A -> A -> A;
    a_div : A -> A -> result A;
    a_eqb : A -> A -> bool }.

Arguments a_int {A}.
Arguments a_neg {A}.
Arguments a_add {A}.
Arguments a_mul {A}.
Arguments a_div {A}.
Arguments a_eqb {A}.

Definition py_arith : arith number :=
  {| a_int := PyInt; a_neg := num_neg; a_add := num_add; a_mul := num_mul;
     a_div := num_div; a_eqb := num_eqb |}.

Definition Q_arith : arith Q :=
  {| a_int := inject_Z; a_neg := Qopp; a_add := Qplus; a_mul := Qmult;
     a_div := fun a b => if Qeq_bool b 0 then Raise ZeroDivisionError else Ok (Qdiv a b);
     a_eqb := Qeq_bool |}.

Inductive transform (A : Type) : Type :=
| Translate (tx ty : A)
| Scale (sx sy : A).

Arguments Translate {A}.
Arguments Scale {A}.

Section Normalizer.

Context {A : Type} (ops : arith A).

(** Lines 92-95: the scale and translation of a viewBox. *)
Definition scale_translate (vb : A * A * A * A) : result (A * A * A * A) :=
  let '(vx, vy, vw, vh) := vb in
  scale_x <- a_div ops (a_int ops 24) vw ;;
  scale_y <- a_div ops (a_int ops 24) vh ;;
  let translate_x := a_mul ops (a_neg ops vx) scale_x in
  let translate_y := a_mul ops (a_neg ops vy) scale_y in
  Ok (scale_x, scale_y, translate_x, translate_y).

(** Lines 98-102: the components that are not the identity, the translation
    before the scale. *)
Definition build_transforms (p : A * A * A * A) : list (transform A) :=
  let '(scale_x, scale_y, translate_x, translate_y) := p in
  (if negb (a_eqb ops translate_x (a_int ops 0)) || negb (a_eqb ops translate_y (a_int ops 0))
   then [Translate translate_x translate_y] else [])
  ++
  (if negb (a_eqb ops scale_x (a_int ops 1)) || negb (a_eqb ops scale_y (a_int ops 1))
   then [Scale scale_x scale_y] else []).

(** What a transform list does to a point: SVG post-multiplies the
    transforms of a list, so the rightmost one is applied to the point
    first. *)
Definition apply_one (t : transform A) (p : A * A) : A * A :=
  match t with
  | Translate tx ty => (a_add ops (fst p) tx, a_add ops (snd p) ty)
  | Scale sx sy => (a_mul ops (fst p) sx, a_mul ops (snd p) sy)
  end.

Definition apply_transforms (ts : list (transform A)) (p : A * A) : A * A :=
  fold_right apply_one p ts.

End Normalizer.

(** ** XML elements, as ElementTree holds them *)

#[warnings="-register-all"]
Inductive element : Type :=
  Element { tag : string;
            attrib : list (string * string);
            text : option string;
            tail : option string;
            children : list element }.

Fixpoint assoc_get (k : string) (l : list (string * string)) : option string :=
  match l with
  | [] => None
  | (k', v) :: l' => if (k' =? k)%string then Some v else assoc_get k l'
  end.

(** A dict assignment keeps the position of a key that is present and
    appends a new one. *)
Fixpoint assoc_set (k v : string) (l : list (string * string)) : list (string * string) :=
  match l with
  | [] => [(k, v)]
  | (k', v') :: l' =>
      if (k' =? k)%string then (k', v) :: l' else (k', v') :: assoc_set k v l'
  end.

(** [element.get(k)] *)
Definition get (e : element) (k : string) : option string := assoc_get k (attrib e).

(** [element.get(k) == v] *)
Definition option_eqb (o : option string) (v : string) : bool :=
  match o with
  | Some s => (s =? v)%string
  | None => false
  end.

(** [element.get(k, d)] *)
Definition get_default (e : element) (k d : string) : string :=
  match get e k with
  | Some v => v
  | None => d
  end.

(** [element.set(k, v)] *)
Definition set (e : element) (k v : string) : element :=
  Element (tag e) (assoc_set k v (attrib e)) (text e) (tail e) (children e).

Fixpoint last_segment (s cur : string) : string :=
  match s with
  | EmptyString => cur
  | String c s' =>
      if Ascii.eqb c "}"%char then last_segment s' ""
      else last_segment s' (snoc cur c)
  end.

(** [tag.split('}')[-1] if '}' in tag else tag] *)
Definition local_name (t : string) : string := last_segment t "".

(** ** The runtime: Python's builtins and ElementTree *)

Record runtime : Type :=
  { float_of_str : string -> option float;   (* float(s); None is ValueError *)
    str_of_float : float -> string;          (* str(x), as an f-string formats x *)
    ET_fromstring : string -> option element;(* None is ET.ParseError *)
    ET_tostring : element -> result string;  (* ET.tostring(e, encoding='unicode');
                                                the serializer is recursive, and raises
                                                RecursionError on an element that is
                                                nested too deep *)
    stack_room : nat -> string -> list (string * string) -> bool }.
                                             (* whether the interpreter's stack has room
                                                for what the collector does with an
                                                element of this tag and these attributes
                                                met at this nesting level: the call of
                                                the classifier, of the normalizer, or of
                                                the collector itself.  false is
                                                RecursionError *)

Fixpoint traverse {A B : Type} (f : A -> option B) (l : list A) : option (list B) :=
  match l with
  | [] => Some []
  | a :: l' =>
      match f a with
      | None => None
      | Some b =>
          match traverse f l' with
          | None => None
          | Some bs => Some (b :: bs)
          end
      end
  end.

Section Script.

Variable rt : runtime.

Definition str_of_number (n : number) : string :=
  match n with
  | PyInt z => str_of_int z
  | PyFloat f => str_of_float rt f
  end.

(** *** parse_viewbox *)

Definition parse_viewbox (viewbox_str : string) : viewbox :=
  match traverse (float_of_str rt) (py_split viewbox_str) with
  | Some [x; y; w; h] => (PyFloat x, PyFloat y, PyFloat w, PyFloat h)
  | _ => default_viewbox
  end.

(** *** is_background_element *)

Definition hard_coded_patterns : list string :=
  [ "M0 0h24v24H0z"; "M0 0h24v24H0V0z"; "M0,0h24v24H0V0z"; "M.01 0h24v24h-24V0z" ].

Definition background_patterns (vb : viewbox) : result (list string) :=
  let '(vx, vy, vw, vh) := vb in
  let sx := str_of_number vx in
  let sy := str_of_number vy in
  let sw := str_of_number vw in
  let sh := str_of_number vh in
  iw <- py_int vw ;;
  ih <- py_int vh ;;
  let siw := str_of_int iw in
  let sih := str_of_int ih in
  Ok ([ "M" ++ sx ++ " " ++ sy ++ "h" ++ sw ++ "v" ++ sh ++ "H" ++ sx ++ "z";
        "M" ++ sx ++ " " ++ sy ++ "h" ++ sw ++ "v" ++ sh ++ "H" ++ sx ++ "V" ++ sy ++ "z";
        "M" ++ sx ++ "," ++ sy ++ "h" ++ sw ++ "v" ++ sh ++ "H" ++ sx ++ "V" ++ sy ++ "z";
        "M" ++ sx ++ " " ++ sy ++ "h" ++ siw ++ "v" ++ sih ++ "H" ++ sx ++ "z";
        "M" ++ sx ++ " " ++ sy ++ "h" ++ siw ++ "v" ++ sih ++ "H" ++ sx ++ "V" ++ sy ++ "z"
      ]%string ++ hard_coded_patterns).

(** [float(element.get(k, 0))] *)
Definition float_attr (e : element) (k : string) : result float :=
  match get e k with
  | None => Ok (float_of_int 0)
  | Some s =>
      match float_of_str rt s with
      | Some f => Ok f
      | None => Raise ValueError
      end
  end.

Definition is_background_element (e : element) (vb : viewbox) : result bool :=
  let t := local_name (tag e) in
  if option_eqb (get e "fill") "none" then Ok true
  else
      in_patterns <-
        (if (t =? "path")%string then
           let d_attr := get_default e "d" "" in
           pats <- background_patterns vb ;;
           Ok (existsb (String.eqb (strip d_attr)) pats)
         else Ok false) ;;
      if (in_patterns : bool) then Ok true
      else if (t =? "rect")%string then
        x <- float_attr e "x" ;;
        y <- float_attr e "y" ;;
        width <- float_attr e "width" ;;
        height <- float_attr e "height" ;;
        let '(vx, vy, vw, vh) := vb in
        Ok (num_eqb (PyFloat x) vx && num_eqb (PyFloat y) vy
            && num_geb (PyFloat width) vw && num_geb (PyFloat height) vh)
      else Ok false.

(** *** normalize_element_to_24x24 *)

(** The f-strings of lines 100 and 102. *)
Definition render (t : transform number) : string :=
  match t with
  | Translate tx ty => "translate(" ++ str_of_number tx ++ "," ++ str_of_number ty ++ ")"
  | Scale sx sy => "scale(" ++ str_of_number sx ++ "," ++ str_of_number sy ++ ")"
  end.

(** Tuple equality: component by component. *)
Definition viewbox_eqb (a b : viewbox) : bool :=
  let '(ax, ay, aw, ah) := a in
  let '(bx, by_, bw, bh) := b in
  num_eqb ax bx && num_eqb ay by_ && num_eqb aw bw && num_eqb ah bh.

Definition normalize_element_to_24x24 (e : element) (source_viewbox : viewbox)
  : result element :=
  if viewbox_eqb source_viewbox default_viewbox then
    Ok (set e "fill" "currentColor")
  else
    p <- scale_translate py_arith source_viewbox ;;
    let transforms := map render (build_transforms py_arith p) in
    let e' :=
      match transforms with
      | [] => e
      | _ :: _ =>
          let existing_transform := get_default e "transform" "" in
          let new_transform := join " " transforms in
          if (existing_transform =? "")%string
          then set e "transform" new_transform
          else set e "transform" (existing_transform ++ " " ++ new_transform)
      end in
    Ok (set e' "fill" "currentColor").

(** *** extract_icon_elements *)

Definition drawable_tags : list string :=
  [ "path"; "rect"; "circle"; "ellipse"; "line"; "polyline"; "polygon" ].

Definition is_drawable (e : element) : bool :=
  existsb (String.eqb (local_name (tag e))) drawable_tags.

(** The [for] loop of [collect_elements] over the children of a parent.
    [drawable_elements] is the list the closure appends to: it is threaded
    through, and it is still there when an exception leaves the loop.

    [collect_elements] is the closure as the recursive function its text
    defines, on a stack without bound; [collect_elements_on_stack], after it,
    is the closure as an interpreter runs it, and it is the one
    [extract_icon_elements] calls. *)
Definition collect_loop (viewbox : viewbox)
    (recurse : element -> list element -> result unit * list element)
  : list element -> list element -> result unit * list element :=
  fix loop (elements : list element) (drawable_elements : list element) :=
    match elements with
    | [] => (Ok tt, drawable_elements)
    | e :: rest =>
        if is_drawable e then
          match is_background_element e viewbox with
          | Raise ex => (Raise ex, drawable_elements)
          | Ok true => loop rest drawable_elements
          | Ok false =>
              match normalize_element_to_24x24 e viewbox with
              | Raise ex => (Raise ex, drawable_elements)
              | Ok normalized => loop rest (drawable_elements ++ [normalized])
              end
          end
        else
          match recurse e drawable_elements with
          | (Raise ex, drawable_elements') => (Raise ex, drawable_elements')
          | (Ok _, drawable_elements') => loop rest drawable_elements'
          end
    end.

Fixpoint collect_elements (viewbox : viewbox) (parent : element)
    (drawable_elements : list element) {struct parent}
  : result unit * list element :=
  collect_loop viewbox (collect_elements viewbox) (children parent) drawable_elements.

(** The same closure on the interpreter's stack.  The recursion of
    [collect_elements] is as deep as the document, and every call takes room
    on a stack that is bounded (sys.getrecursionlimit(), 1000 unless
    changed): where the room is used up, the call an element asks for raises
    [RecursionError] before anything else happens to that element.  [level]
    is the number of calls of [collect_elements] that are running, 1 for the
    children of the root. *)
Definition collect_loop_on_stack (viewbox : viewbox) (level : nat)
    (recurse : element -> list element -> result unit * list element)
  : list element -> list element -> result unit * list element :=
  fix loop (elements : list element) (drawable_elements : list element) :=
    match elements with
    | [] => (Ok tt, drawable_elements)
    | e :: rest =>
        if negb (stack_room rt level (tag e) (attrib e)) then
          (Raise RecursionError, drawable_elements)
        else if is_drawable e then
          match is_background_element e viewbox with
          | Raise ex => (Raise ex, drawable_elements)
          | Ok true => loop rest drawable_elements
          | Ok false =>
              match normalize_element_to_24x24 e viewbox with
              | Raise ex => (Raise ex, drawable_elements)
              | Ok normalized => loop rest (drawable_elements ++ [normalized])
              end
          end
        else
          match recurse e drawable_elements with
          | (Raise ex, drawable_elements') => (Raise ex, drawable_elements')
          | (Ok _, drawable_elements') => loop rest drawable_elements'
          end
    end.

Fixpoint collect_elements_on_stack (viewbox : viewbox) (level : nat) (parent : element)
    (drawable_elements : list element) {struct parent}
  : result unit * list element :=
  collect_loop_on_stack viewbox level (collect_elements_on_stack viewbox (S level))
    (children parent) drawable_elements.

(** What the script prints, on a standard output that takes the characters
    of its messages. *)
Inductive event : Type :=
| IconsDirNotFound
| NoSvgFilesFound
| Processing (n : nat)
| XmlParseError
| UnexpectedError (ex : exn)
| Processed (icon_name : string)
| Skipped (icon_name : string)
| ErrorProcessing (icon_name : string)
| Success (icons : nat)
| ErrorWriting.

(** The body of the [try] of [extract_icon_elements]. *)
Definition extract_try (svg_content : string) : result unit * list element :=
  match ET_fromstring rt svg_content with
  | None => (Raise ParseError, [])
  | Some root =>
      let viewbox_str := get_default root "viewBox" "0 0 24 24" in
      let viewbox := parse_viewbox viewbox_str in
      collect_elements_on_stack viewbox 1 root []
  end.

(** The [try] with its two handlers: both print and return the empty list,
    whatever was collected. *)
Definition extract_icon_elements (svg_content : string) : list element * list event :=
  match extract_try svg_content with
  | (Ok _, drawable_elements) => (drawable_elements, [])
  | (Raise ParseError, _) => ([], [XmlParseError])
  | (Raise ex, _) => ([], [UnexpectedError ex])
  end.

(** *** optimize_sprite_content *)

Definition optimize_line (line : string) : list string :=
  let stripped := strip line in
  if (stripped =? "")%string then []
  else if startswith stripped "<symbol" then [("  " ++ stripped)%string]
  else if startswith stripped "<path" then [("    " ++ stripped)%string]
  else if startswith stripped "</symbol>" then [("  " ++ stripped)%string]
  else [stripped].

Definition nl : string := String newline EmptyString.

Definition optimize_sprite_content (content : string) : string :=
  join nl (flat_map optimize_line (split_lines content)).

(** *** generate_sprite *)

(** [Path.stem]: the name without its last suffix. *)
Fixpoint rfind_dot (s : string) (i : nat) : option nat :=
  match s with
  | EmptyString => None
  | String c s' =>
      match rfind_dot s' (S i) with
      | Some j => Some j
      | None => if Ascii.eqb c "."%char then Some i else None
      end
  end.

Definition stem (name : string) : string :=
  match rfind_dot name 0 with
  | Some i =>
      if ((0 <? i) && (i <? String.length name - 1))%nat
      then String.substring 0 i name else name
  | None => name
  end.

(** A directory entry matched by [glob('*.svg')]: its name, and its content
    ([None] when opening or decoding it raises). *)
Definition svg_file : Type := string * option string.

(** [sorted(svg_files)]: paths of one directory compare as their names do,
    code point by code point (on a POSIX system; the sort is stable). *)
Fixpoint insert_sorted (f : svg_file) (l : list svg_file) : list svg_file :=
  match l with
  | [] => [f]
  | g :: l' => if String.leb (fst f) (fst g) then f :: l else g :: insert_sorted f l'
  end.

Definition sorted (l : list svg_file) : list svg_file :=
  fold_right insert_sorted [] l.

Record state : Type :=
  { sprite_content : list string;
    processed_count : nat;
    printed : list event }.

Definition symbol_open (icon_name : string) : string :=
  "  <symbol id=" ++ dq ++ icon_name ++ dq ++ " viewBox=" ++ dq ++ "0 0 24 24" ++ dq ++ ">".

Definition symbol_close : string := "  </symbol>".

(** The f-string of line 218. *)
Definition element_line (element_str : string) : string := "    " ++ element_str.

(** The loop of lines 215-218 over the elements of one file.  It appends to
    [sprite_content] as it goes: when [ET.tostring] raises, the lines
    appended so far are in the list, and stay there. *)
Fixpoint append_elements (elements : list element) (sprite_content : list string)
  : result unit * list string :=
  match elements with
  | [] => (Ok tt, sprite_content)
  | element :: rest =>
      match ET_tostring rt element with
      | Raise ex => (Raise ex, sprite_content)
      | Ok element_str =>
          append_elements rest (sprite_content ++ [element_line element_str])
      end
  end.

(** One turn of the loop of lines 200-227.  The [try] of lines 203-227
    covers the read, the extraction and the serialization; its handler
    prints and goes on, with whatever [sprite_content] holds by then. *)
Definition process_file (st : state) (f : svg_file) : state :=
  let icon_name := stem (fst f) in
  match snd f with
  | None =>
      {| sprite_content := sprite_content st;
         processed_count := processed_count st;
         printed := printed st ++ [ErrorProcessing icon_name] |}
  | Some content =>
      let '(elements, msgs) := extract_icon_elements content in
      match elements with
      | [] =>
          {| sprite_content := sprite_content st;
             processed_count := processed_count st;
             printed := printed st ++ msgs ++ [Skipped icon_name] |}
      | _ :: _ =>
          match append_elements elements (sprite_content st ++ [symbol_open icon_name]) with
          | (Ok _, appended) =>
              {| sprite_content := appended ++ [symbol_close];
                 processed_count := S (processed_count st);
                 printed := printed st ++ msgs ++ [Processed icon_name] |}
          | (Raise _, appended) =>
              {| sprite_content := appended;
                 processed_count := processed_count st;
                 printed := printed st ++ msgs ++ [ErrorProcessing icon_name] |}
          end
      end
  end.

Definition sprite_header : string :=
  "<svg xmlns=" ++ dq ++ "http://www.w3.org/2000/svg" ++ dq
    ++ " style=" ++ dq ++ "display: none;" ++ dq ++ ">".

Definition sprite_footer : string := "</svg>".

(** The file system as the script sees it. *)
Record world : Type :=
  { icons_dir : option (list svg_file);  (* None: the directory does not exist *)
    output_dir_ok : bool;                (* mkdir(parents, exist_ok) succeeds *)
    output_writable : bool }.            (* open(output_file, 'w') and write succeed *)

(** What a run leaves behind. *)
Record run : Type :=
  { output : list event;           (* standard output *)
    written : option string;       (* the content written to the sprite file *)
    crashed : bool }.              (* an exception left generate_sprite *)

Definition generate_sprite (w : world) : run :=
  match icons_dir w with
  | None => {| output := [IconsDirNotFound]; written := None; crashed := false |}
  | Some [] => {| output := [NoSvgFilesFound]; written := None; crashed := false |}
  | Some svg_files =>
      if negb (output_dir_ok w) then
        {| output := []; written := None; crashed := true |}
      else
        let st := fold_left process_file (sorted svg_files)
                    {| sprite_content := [sprite_header];
                       processed_count := 0%nat;
                       printed := [Processing (List.length svg_files)] |} in
        let optimized_content :=
          optimize_sprite_content (join nl (sprite_content st ++ [sprite_footer])) in
        if output_writable w then
          {| output := printed st ++ [Success (processed_count st)];
             written := Some optimized_content; crashed := false |}
        else
          {| output := printed st ++ [ErrorWriting];
             written := None; crashed := false |}
  end.

End Script.

(** * Specification-side definitions

    The definitions below state the specification's notions (the rules of
    the classifier, the elements the collector reaches, the symbols of the
    sprite, exact arithmetic); the theorems compare the script with them. *)

Section Specification.

Variable rt : runtime.

(** ** The classifier's rules (a)-(c) *)

(** (a) an explicit [fill="none"]. *)
Definition rule_a (e : element) : bool := option_eqb (get e "fill") "none".

(** The literal patterns of rule (b): the viewBox rectangle with its numbers
    as they print, the same with the size printed as integers (when the size
    has an integer value), and the hard-coded 24x24 ones. *)
Definition pattern_list (vb : viewbox) : list string :=
  let '(vx, vy, vw, vh) := vb in
  let sx := str_of_number rt vx in
  let sy := str_of_number rt vy in
  let sw := str_of_number rt vw in
  let sh := str_of_number rt vh in
  [ "M" ++ sx ++ " " ++ sy ++ "h" ++ sw ++ "v" ++ sh ++ "H" ++ sx ++ "z";
    "M" ++ sx ++ " " ++ sy ++ "h" ++ sw ++ "v" ++ sh ++ "H" ++ sx ++ "V" ++ sy ++ "z";
    "M" ++ sx ++ "," ++ sy ++ "h" ++ sw ++ "v" ++ sh ++ "H" ++ sx ++ "V" ++ sy ++ "z"
  ]%string
  ++ match py_int vw, py_int vh with
     | Ok iw, Ok ih =>
         let siw := str_of_int iw in
         let sih := str_of_int ih in
         [ "M" ++ sx ++ " " ++ sy ++ "h" ++ siw ++ "v" ++ sih ++ "H" ++ sx ++ "z";
           "M" ++ sx ++ " " ++ sy ++ "h" ++ siw ++ "v" ++ sih ++ "H" ++ sx ++ "V" ++ sy ++ "z"
         ]%string
     | _, _ => []
     end
  ++ hard_coded_patterns.

(** (b) a path whose trimmed [d] is string-equal to one of the patterns. *)
Definition rule_b (e : element) (vb : viewbox) : bool :=
  (local_name (tag e) =? "path")%string
  && existsb (String.eqb (strip (get_default e "d" ""))) (pattern_list vb).

(** The value of a geometry attribute: 0 when absent, nothing when the
    attribute does not read as a float. *)
Definition attr_value (e : element) (k : string) : option float :=
  match get e k with
  | None => Some (float_of_int 0)
  | Some s => float_of_str rt s
  end.

(** (c) a rect at the viewBox origin that is at least as wide and as high
    as the viewBox. *)
Definition rule_c (e : element) (vb : viewbox) : bool :=
  (local_name (tag e) =? "rect")%string
  && match attr_value e "x", attr_value e "y",
           attr_value e "width", attr_value e "height" with
     | Some x, Some y, Some width, Some height =>
         let '(vx, vy, vw, vh) := vb in
         num_eqb (PyFloat x) vx && num_eqb (PyFloat y) vy
         && num_geb (PyFloat width) vw && num_geb (PyFloat height) vh
     | _, _, _, _ => false
     end.

Definition matches_a_rule (e : element) (vb : viewbox) : bool :=
  rule_a e || rule_b e vb || rule_c e vb.

(** When the classifier returns nothing: a path under a viewBox whose width
    or height has no integer value, or a rect one of whose geometry
    attributes does not read as a float (and no [fill="none"] in either
    case). *)
Definition classification_error (e : element) (vb : viewbox) : option exn :=
  if rule_a e then None
  else if (local_name (tag e) =? "path")%string then
    let '(_, _, vw, vh) := vb in
    match py_int vw with
    | Raise ex => Some ex
    | Ok _ => match py_int vh with
              | Raise ex => Some ex
              | Ok _ => None
              end
    end
  else if (local_name (tag e) =? "rect")%string then
    match attr_value e "x", attr_value e "y",
          attr_value e "width", attr_value e "height" with
    | Some _, Some _, Some _, Some _ => None
    | _, _, _, _ => Some ValueError
    end
  else None.

(** A geometry attribute of a rect that is present and does not read as a
    float. *)
Definition unparsable_geometry (e : element) : Prop :=
  exists k s,
    In k ["x"; "y"; "width"; "height"] /\ get e k = Some s /\ float_of_str rt s = None.

(** ** The elements the collector reaches *)

(** The drawable elements below [parent] that have no drawable element
    between them and [parent], in document order. *)
Fixpoint reached (parent : element) : list element :=
  flat_map (fun c => if is_drawable c then [c] else reached c) (children parent).

(** Every element below [parent], in document order. *)
Fixpoint descendants (parent : element) : list element :=
  flat_map (fun c => c :: descendants c) (children parent).

(** Classification and normalization of a flat list of elements, one after
    the other, stopping at the first exception. *)
Fixpoint classify_all (vb : viewbox) (es : list element) (acc : list element)
  : result unit * list element :=
  match es with
  | [] => (Ok tt, acc)
  | e :: rest =>
      match is_background_element rt e vb with
      | Raise ex => (Raise ex, acc)
      | Ok true => classify_all vb rest acc
      | Ok false =>
          match normalize_element_to_24x24 rt e vb with
          | Raise ex => (Raise ex, acc)
          | Ok normalized => classify_all vb rest (acc ++ [normalized])
          end
      end
  end.

(** Two elements that agree on everything but their children. *)
Definition same_node (e1 e2 : element) : Prop :=
  tag e1 = tag e2 /\ attrib e1 = attrib e2 /\ text e1 = text e2 /\ tail e1 = tail e2.

(** Two trees that agree everywhere except below their drawable
    elements. *)
#[warnings="-register-all"]
Inductive same_above_drawables : element -> element -> Prop :=
| same_drawable e1 e2 :
    is_drawable e1 = true -> same_node e1 e2 ->
    same_above_drawables e1 e2
| same_container e1 e2 :
    is_drawable e1 = false -> same_node e1 e2 ->
    Forall2 same_above_drawables (children e1) (children e2) ->
    same_above_drawables e1 e2.

(** ** The symbols of the sprite *)

Record symbol : Type :=
  { symbol_id : string;
    symbol_viewBox : string;
    symbol_elements : list element }.

(** The elements a file yields: what [extract_icon_elements] returns for
    its content, and nothing when it cannot be read. *)
Definition retained (f : svg_file) : list element :=
  match snd f with
  | None => []
  | Some content => fst (extract_icon_elements rt content)
  end.

Definition yields_elements (f : svg_file) : bool :=
  match retained f with
  | [] => false
  | _ :: _ => true
  end.

(** One symbol per file that yields an element, in sorted-file-name order. *)
Definition symbols_of (files : list svg_file) : list symbol :=
  map (fun f => {| symbol_id := stem (fst f);
                   symbol_viewBox := "0 0 24 24";
                   symbol_elements := retained f |})
      (filter yields_elements (sorted files)).

(** *** The sprite document, as the specification describes it

    The definitions of this part are written from the specification: they
    name no definition of the assembler. *)







(** *** What the loop of the assembler appends *)

(** The serializations of the elements of a list, up to the first element
    that cannot be serialized. *)
Fixpoint serialized_prefix (els : list element) : list string :=
  match els with
  | [] => []
  | e :: rest =>
      match ET_tostring rt e with
      | Ok s => s :: serialized_prefix rest
      | Raise _ => []
      end
  end.

Definition all_serialize (els : list element) : bool :=
  forallb (fun e => match ET_tostring rt e with Ok _ => true | Raise _ => false end) els.

(** A file whose retained elements can all be serialized. *)
Definition serializes (f : svg_file) : bool := all_serialize (retained f).

(** A file that gets a complete symbol. *)
Definition completes (f : svg_file) : bool := yields_elements f && serializes f.

(** The lines one file adds to the sprite: for a file that yields
    elements, the opening line, the lines of the elements up to the first
    that cannot be serialized, and the closing line if there is none such. *)
Definition file_lines (f : svg_file) : list string :=
  match retained f with
  | [] => []
  | _ :: _ =>
      [symbol_open (stem (fst f))]
      ++ map element_line (serialized_prefix (retained f))
      ++ (if serializes f then [symbol_close] else [])
  end.

(** A file whose processing raises: it cannot be read, or the [try] of
    [extract_icon_elements] is left by an exception ([collected] is what the
    collector had appended by then). *)
Definition file_raises (f : svg_file) : Prop :=
  snd f = None
  \/ exists content ex collected,
       snd f = Some content /\ extract_try rt content = (Raise ex, collected).

(** The diagnostics of the script. *)
Definition is_diagnostic (ev : event) : bool :=
  match ev with
  | XmlParseError | UnexpectedError _ | ErrorProcessing _ => true
  | _ => false
  end.

(** The lines about single files. *)
Definition is_file_event (ev : event) : bool :=
  match ev with
  | XmlParseError | UnexpectedError _ | ErrorProcessing _
  | Processed _ | Skipped _ => true
  | _ => false
  end.

End Specification.

(** ** Names in sorted order *)

Definition name_le (f g : svg_file) : Prop := String.leb (fst f) (fst g) = true.

(** ** Floats that are numbers *)

Definition is_finite (f : float) : bool :=
  match Prim2SF f with
  | S754_zero _ | S754_finite _ _ _ => true
  | S754_infinity _ | S754_nan => false
  end.

(** The mantissa of the double 1: 2^52. *)
Definition one_mantissa : positive := 4503599627370496.


Definition Qpoint_eq (p q : Q * Q) : Prop := fst p == fst q /\ snd p == snd q.

(** * A reference runtime

    The theorems hold for every [runtime].  The examples are run on the one
    below.  [py_float] is Python's [float] on decimal literals (sign, digits
    with single underscores, fraction, exponent, inf and nan, surrounding
    whitespace), correctly rounded; [py_repr] is the shortest decimal that
    reads back as the double, laid out as [repr] does.  [xml_fromstring] is
    ElementTree's parser on elements, quoted attributes, character data, the
    predefined entities, decimal character references and a default
    namespace; it refuses namespace prefixes, CDATA, DOCTYPE and quotes
    inside comments, which ElementTree reads.  [xml_tostring] is
    ElementTree's serializer. *)

Module Reference.

(** ** float(s) *)

Definition is_digit (c : ascii) : bool :=
  let n := N_of_ascii c in ((48 <=? n) && (n <=? 57))%N.

Definition digit_value (c : ascii) : Z := Z.of_N (N_of_ascii c) - 48.

(** [digit (["_"] digit)*], continued: the value and the number of digits
    read, and what follows them. *)
Fixpoint digit_run (s : string) (acc : Z) (cnt : Z) : Z * Z * string :=
  match s with
  | EmptyString => (acc, cnt, s)
  | String c s' =>
      if is_digit c then digit_run s' (10 * acc + digit_value c) (cnt + 1)
      else if Ascii.eqb c "_"%char then
        match s' with
        | String c2 s'' =>
            if is_digit c2 then digit_run s'' (10 * acc + digit_value c2) (cnt + 1)
            else (acc, cnt, s)
        | EmptyString => (acc, cnt, s)
        end
      else (acc, cnt, s)
  end.

Definition digitpart (s : string) : option (Z * Z * string) :=
  match s with
  | String c _ => if is_digit c then Some (digit_run s 0 0) else None
  | EmptyString => None
  end.

Definition lower (c : ascii) : ascii :=
  let n := N_of_ascii c in
  if ((65 <=? n) && (n <=? 90))%N then ascii_of_N (n + 32) else c.

Fixpoint lowercase (s : string) : string :=
  match s with
  | EmptyString => EmptyString
  | String c s' => String (lower c) (lowercase s')
  end.

(** The sign of a literal and the rest of it. *)
Definition split_sign (s : string) : bool * string :=
  match s with
  | String "-"%char s' => (true, s')
  | String "+"%char s' => (false, s')
  | _ => (false, s)
  end.

(** [floatnumber]: the digits as an integer and the power of ten. *)
Definition parse_decimal (s : string) : option (Z * Z) :=
  let '(int_value, has_int, after_int) :=
    match digitpart s with
    | Some (v, _, r) => (v, true, r)
    | None => (0, false, s)
    end in
  let '(mantissa, scale, has_frac, after_frac) :=
    match after_int with
    | String "."%char r =>
        match digitpart r with
        | Some (v, n, r') => (int_value * 10 ^ n + v, n, true, r')
        | None => (int_value, 0, false, r)
        end
    | _ => (int_value, 0, false, after_int)
    end in
  if has_int || has_frac then
    match after_frac with
    | EmptyString => Some (mantissa, - scale)
    | String c r =>
        if Ascii.eqb (lower c) "e"%char then
          let '(neg, digits) := split_sign r in
          match digitpart digits with
          | Some (v, _, EmptyString) => Some (mantissa, cond_Zopp neg v - scale)
          | _ => None
          end
        else None
    end
  else None.

(** The double nearest to [(-1)^neg * mantissa * 10^exponent]. *)
Definition float_of_decimal (neg : bool) (mantissa exponent : Z) : float :=
  SF2Prim
    match mantissa with
    | Zpos m =>
        if 0 <=? exponent
        then binary_normalize prec emax (cond_Zopp neg (Zpos m * 10 ^ exponent)) 0 false
        else SFdiv prec emax (S754_finite neg m 0)
                             (S754_finite false (Z.to_pos (10 ^ (- exponent))) 0)
    | _ => S754_zero neg
    end.

Definition py_float (s : string) : option float :=
  let '(neg, body) := split_sign (strip s) in
  let word := lowercase body in
  if ((word =? "inf") || (word =? "infinity"))%string
  then Some (if neg then neg_infinity else infinity)
  else if (word =? "nan")%string then Some nan
  else match parse_decimal body with
       | Some (mantissa, exponent) => Some (float_of_decimal neg mantissa exponent)
       | None => None
       end.

(** ** repr(x): the shortest decimal that reads back as [x] *)

Definition pow2 (e : Z) : Q :=
  if 0 <=? e then inject_Z (2 ^ e) else Qmake 1 (Z.to_pos (2 ^ (- e))).

Definition pow10 (d : Z) : Q :=
  if 0 <=? d then inject_Z (10 ^ d) else Qmake 1 (Z.to_pos (10 ^ (- d))).

Definition Qlt_bool (a b : Q) : bool := negb (Qle_bool b a).

(** Does the decimal [c] round to the double [m * 2^e]? *)
Definition rounds_to (m : positive) (e : Z) (c : Q) : bool :=
  let x := (inject_Z (Zpos m) * pow2 e)%Q in
  let up := pow2 (e - 1) in
  let down := if (Zpos m =? 2 ^ 52) && (-1074 <? e) then pow2 (e - 2) else pow2 (e - 1) in
  if Z.even (Zpos m)
  then Qle_bool (x - down) c && Qle_bool c (x + up)
  else Qlt_bool (x - down) c && Qlt_bool c (x + up).

(** The least [d] with [x < 10^d], searched upwards. *)
Fixpoint find_decpt (fuel : nat) (d : Z) (x : Q) : Z :=
  match fuel with
  | O => d
  | S fuel' => if Qlt_bool x (pow10 d) then d else find_decpt fuel' (d + 1) x
  end.

(** Where the search starts: below the decimal logarithm of [m * 2^e],
    estimated from the number of bits. *)
Definition decpt_estimate (m : positive) (e : Z) : Z :=
  (Zpos (digits2_pos m) + e - 1) * 30103 / 100000 - 2.

(** The shortest digit string: with [n] digits, the two neighbours of [x]
    are tried, the closer one first. *)
Fixpoint shortest_digits (fuel : nat) (n : Z) (m : positive) (e d : Z) : Z * Z :=
  let x := (inject_Z (Zpos m) * pow2 e)%Q in
  let scale := pow10 (d - n) in
  let lo := Qfloor (x / scale) in
  let hi := lo + 1 in
  let clo := (inject_Z lo * scale)%Q in
  let chi := (inject_Z hi * scale)%Q in
  let lo_first :=
    match Qcompare (x - clo) (chi - x) with
    | Lt => true
    | Eq => Z.even lo
    | Gt => false
    end in
  let first := if lo_first then (lo, clo) else (hi, chi) in
  let second := if lo_first then (hi, chi) else (lo, clo) in
  if rounds_to m e (snd first) then (fst first, n)
  else if rounds_to m e (snd second) then (fst second, n)
  else match fuel with
       | O => (lo, n)
       | S fuel' => shortest_digits fuel' (n + 1) m e d
       end.

Fixpoint strip_zeros (s : string) : string :=
  match s with
  | EmptyString => EmptyString
  | String c s' =>
      match strip_zeros s' with
      | EmptyString => if Ascii.eqb c "0"%char then EmptyString else String c EmptyString
      | r => String c r
      end
  end.

Fixpoint zeros (n : nat) : string :=
  match n with
  | O => EmptyString
  | S n' => String "0"%char (zeros n')
  end.

(** The layout of [repr]: plain for a decimal point after -4 and up to 16
    digits, with an exponent otherwise. *)
Definition layout (digits : string) (decpt : Z) : string :=
  let k := Z.of_nat (String.length digits) in
  if (decpt <=? -4) || (16 <? decpt) then
    let exponent := decpt - 1 in
    let mantissa :=
      match digits with
      | String c EmptyString => digits
      | String c rest => String c ("." ++ rest)
      | EmptyString => digits
      end in
    let e_digits := str_of_int (Z.abs exponent) in
    mantissa ++ "e" ++ (if exponent <? 0 then "-" else "+")
      ++ (if Z.abs exponent <? 10 then "0" else "") ++ e_digits
  else if decpt <=? 0 then
    "0." ++ zeros (Z.to_nat (- decpt)) ++ digits
  else if k <=? decpt then
    digits ++ zeros (Z.to_nat (decpt - k)) ++ ".0"
  else
    String.substring 0 (Z.to_nat decpt) digits ++ "."
      ++ String.substring (Z.to_nat decpt) (Z.to_nat (k - decpt)) digits.

Definition py_repr (f : float) : string :=
  match Prim2SF f with
  | S754_nan => "nan"
  | S754_infinity s => if s then "-inf" else "inf"
  | S754_zero s => if s then "-0.0" else "0.0"
  | S754_finite s m e =>
      let x := (inject_Z (Zpos m) * pow2 e)%Q in
      let d := find_decpt 8 (decpt_estimate m e) x in
      let '(D, n) := shortest_digits 17 1 m e d in
      let all := str_of_int D in
      let decpt := d + (Z.of_nat (String.length all) - n) in
      (if s then "-" else "") ++ layout (strip_zeros all) decpt
  end.

(** ** ET.tostring(e, encoding='unicode') *)

Local Open Scope string_scope.

Fixpoint replace_char (f : ascii -> option string) (s : string) : string :=
  match s with
  | EmptyString => EmptyString
  | String c s' =>
      match f c with
      | Some r => r ++ replace_char f s'
      | None => String c (replace_char f s')
      end
  end.

Definition escape_cdata : string -> string :=
  replace_char (fun c =>
    if Ascii.eqb c "&"%char then Some "&amp;"
    else if Ascii.eqb c "<"%char then Some "&lt;"
    else if Ascii.eqb c ">"%char then Some "&gt;"
    else None).

Definition escape_attrib : string -> string :=
  replace_char (fun c =>
    if Ascii.eqb c "&"%char then Some "&amp;"
    else if Ascii.eqb c "<"%char then Some "&lt;"
    else if Ascii.eqb c ">"%char then Some "&gt;"
    else if Ascii.eqb c "034"%char then Some "&quot;"
    else if Ascii.eqb c "013"%char then Some "&#13;"
    else if Ascii.eqb c "010"%char then Some "&#10;"
    else if Ascii.eqb c "009"%char then Some "&#09;"
    else None).

(** [s.rsplit("}", 1)] when [s] has a closing brace. *)
Fixpoint rsplit_brace (s : string) : option (string * string) :=
  match s with
  | EmptyString => None
  | String c s' =>
      match rsplit_brace s' with
      | Some (u, l) => Some (String c u, l)
      | None => if Ascii.eqb c "}"%char then Some (EmptyString, s') else None
      end
  end.

(** The namespace and the local part of a qualified name [{uri}local]. *)
Definition split_qname (q : string) : option (string * string) :=
  match q with
  | String "{"%char rest => rsplit_brace rest
  | _ => None
  end.

Definition well_known_prefixes : list (string * string) :=
  [ ("http://www.w3.org/XML/1998/namespace", "xml");
    ("http://www.w3.org/1999/xhtml", "html");
    ("http://www.w3.org/1999/02/22-rdf-syntax-ns#", "rdf");
    ("http://schemas.xmlsoap.org/wsdl/", "wsdl");
    ("http://www.w3.org/2001/XMLSchema", "xs");
    ("http://www.w3.org/2001/XMLSchema-instance", "xsi");
    ("http://purl.org/dc/elements/1.1/", "dc") ].

(** The prefixes given so far, then the prefix of one more name. *)
Definition add_qname (namespaces : list (string * string)) (q : string)
  : list (string * string) :=
  match split_qname q with
  | None => namespaces
  | Some (uri, _) =>
      match assoc_get uri namespaces with
      | Some _ => namespaces
      | None =>
          let prefix :=
            match assoc_get uri well_known_prefixes with
            | Some p => p
            | None => "ns" ++ str_of_int (Z.of_nat (List.length namespaces))
            end in
          if (prefix =? "xml")%string then namespaces else (namespaces ++ [(uri, prefix)])%list
      end
  end.

Fixpoint collect_namespaces (e : element) (namespaces : list (string * string))
  : list (string * string) :=
  fold_left (fun ns c => collect_namespaces c ns) (children e)
    (fold_left add_qname (map fst (attrib e)) (add_qname namespaces (tag e))).

Definition qname (namespaces : list (string * string)) (q : string) : string :=
  match split_qname q with
  | None => q
  | Some (uri, local) =>
      match assoc_get uri (namespaces ++ well_known_prefixes)%list with
      | Some prefix => prefix ++ ":" ++ local
      | None => local
      end
  end.

Fixpoint insert_by_prefix (d : string * string) (l : list (string * string))
  : list (string * string) :=
  match l with
  | [] => [d]
  | d' :: l' => if String.leb (snd d) (snd d') then d :: l else d' :: insert_by_prefix d l'
  end.

Definition option_text (o : option string) : string :=
  match o with
  | Some s => s
  | None => EmptyString
  end.

Fixpoint serialize (declared namespaces : list (string * string)) (e : element) : string :=
  let t := qname namespaces (tag e) in
  let declarations :=
    map (fun d => " xmlns:" ++ snd d ++ "=" ++ dq ++ escape_attrib (fst d) ++ dq)
        (fold_right insert_by_prefix [] declared) in
  let attributes :=
    map (fun kv => " " ++ qname namespaces (fst kv) ++ "=" ++ dq
                     ++ escape_attrib (snd kv) ++ dq)
        (attrib e) in
  let inner := map (serialize [] namespaces) (children e) in
  "<" ++ t ++ String.concat "" declarations ++ String.concat "" attributes
  ++ (match option_text (text e), children e with
      | EmptyString, [] => " />"
      | _, _ => ">" ++ escape_cdata (option_text (text e))
                  ++ String.concat "" inner ++ "</" ++ t ++ ">"
      end)
  ++ escape_cdata (option_text (tail e)).

Definition xml_tostring (e : element) : string :=
  let namespaces := collect_namespaces e [] in
  serialize namespaces namespaces e.

(** ** ET.fromstring(s), on the XML described above *)

Inductive token : Type :=
| TOpen (name : string) (attrs : list (string * string)) (closed : bool)
| TClose (name : string)
| TText (s : string)
| TSkip.

Definition is_xml_space (c : ascii) : bool :=
  let n := N_of_ascii c in ((n =? 32) || (n =? 9) || (n =? 10) || (n =? 13))%N.

Definition is_name_start (c : ascii) : bool :=
  let n := N_of_ascii c in
  (((65 <=? n) && (n <=? 90)) || ((97 <=? n) && (n <=? 122)) || (n =? 95))%N.

Definition is_name_char (c : ascii) : bool :=
  is_name_start c || is_digit c || Ascii.eqb c "-"%char || Ascii.eqb c "."%char.

(** The predefined entities and decimal character references. *)
Definition entity (name : string) : option string :=
  if (name =? "lt")%string then Some "<"
  else if (name =? "gt")%string then Some ">"
  else if (name =? "amp")%string then Some "&"
  else if (name =? "quot")%string then Some dq
  else if (name =? "apos")%string then Some "'"
  else match name with
       | String "#"%char digits =>
           match digitpart digits with
           | Some (v, _, EmptyString) =>
               if ((0 <? v) && (v <? 256))%Z
               then Some (String (ascii_of_N (Z.to_N v)) EmptyString) else None
           | _ => None
           end
       | _ => None
       end.

Fixpoint decode (s : string) (reference : option string) : option string :=
  match s with
  | EmptyString =>
      match reference with
      | None => Some EmptyString
      | Some _ => None
      end
  | String c s' =>
      match reference with
      | None =>
          if Ascii.eqb c "&"%char then decode s' (Some EmptyString)
          else option_map (String c) (decode s' None)
      | Some name =>
          if Ascii.eqb c ";"%char then
            match entity name, decode s' None with
            | Some r, Some rest => Some (r ++ rest)
            | _, _ => None
            end
          else decode s' (Some (snoc name c))
      end
  end.

Inductive attr_state : Type :=
| ABetween (spaced : bool)
| AName (n : string)
| AEquals (n : string)
| AQuote (n : string)
| AValue (n : string) (q : ascii) (v : string).

Fixpoint parse_attrs (s : string) (st : attr_state) (acc : list (string * string))
  : option (list (string * string)) :=
  match s with
  | EmptyString =>
      match st with
      | ABetween _ => Some acc
      | _ => None
      end
  | String c s' =>
      match st with
      | ABetween spaced =>
          if is_xml_space c then parse_attrs s' (ABetween true) acc
          else if spaced && is_name_start c then parse_attrs s' (AName (String c EmptyString)) acc
          else None
      | AName n =>
          if Ascii.eqb c "="%char then parse_attrs s' (AQuote n) acc
          else if is_xml_space c then parse_attrs s' (AEquals n) acc
          else if is_name_char c then parse_attrs s' (AName (snoc n c)) acc
          else None
      | AEquals n =>
          if Ascii.eqb c "="%char then parse_attrs s' (AQuote n) acc
          else if is_xml_space c then parse_attrs s' (AEquals n) acc
          else None
      | AQuote n =>
          if Ascii.eqb c "034"%char || Ascii.eqb c "'"%char
          then parse_attrs s' (AValue n c EmptyString) acc
          else if is_xml_space c then parse_attrs s' (AQuote n) acc
          else None
      | AValue n q v =>
          if Ascii.eqb c q then
            match assoc_get n acc, decode v None with
            | None, Some value => parse_attrs s' (ABetween false) (acc ++ [(n, value)])%list
            | _, _ => None
            end
          else if Ascii.eqb c "<"%char then None
          else if is_xml_space c then parse_attrs s' (AValue n q (snoc v " "%char)) acc
          else parse_attrs s' (AValue n q (snoc v c)) acc
      end
  end.

(** The name a tag starts with, and what follows it. *)
Fixpoint read_name (s : string) (cur : string) : string * string :=
  match s with
  | EmptyString => (cur, s)
  | String c s' => if is_name_char c then read_name s' (snoc cur c) else (cur, s)
  end.

Definition valid_name (n : string) : bool :=
  match n with
  | String c _ => is_name_start c
  | EmptyString => false
  end.

Fixpoint ends_with_slash (s : string) : bool :=
  match s with
  | EmptyString => false
  | String c EmptyString => Ascii.eqb c "/"%char
  | String _ s' => ends_with_slash s'
  end.

Definition drop_last (s : string) : string :=
  String.substring 0 (String.length s - 1) s.

(** What stands between [<] and [>]. *)
Definition parse_tag (raw : string) : option token :=
  match raw with
  | String "?"%char _ => Some TSkip
  | String "!"%char rest =>
      if String.prefix "--" rest && String.prefix "--" (string_of_list_ascii (rev (list_ascii_of_string rest)))
         && (4 <=? String.length rest)%nat
      then Some TSkip else None
  | String "/"%char rest =>
      let '(name, after) := read_name rest EmptyString in
      if valid_name name && (rstrip after =? "")%string
         && forallb is_xml_space (list_ascii_of_string after)
      then Some (TClose name) else None
  | _ =>
      let closed := ends_with_slash raw in
      let body := if closed then drop_last raw else raw in
      let '(name, after) := read_name body EmptyString in
      if valid_name name then
        match parse_attrs after (ABetween false) [] with
        | Some attrs => Some (TOpen name attrs closed)
        | None => None
        end
      else None
  end.

Definition text_token (cur : string) : option (list token) :=
  if (cur =? "")%string then Some []
  else match decode cur None with
       | Some t => Some [TText t]
       | None => None
       end.

(** Where the lexer is: in character data, or in a tag (and there, inside
    a quoted value or not). *)
Inductive lex_mode : Type :=
| InText
| InTag (quote : option ascii).

Fixpoint lex (s : string) (mode : lex_mode) (cur : string) : option (list token) :=
  match s with
  | EmptyString =>
      match mode with
      | InText => text_token cur
      | InTag _ => None
      end
  | String c s' =>
      match mode with
      | InTag (Some q) =>
          lex s' (InTag (if Ascii.eqb c q then None else Some q)) (snoc cur c)
      | InTag None =>
          if Ascii.eqb c ">"%char then
            match parse_tag cur, lex s' InText EmptyString with
            | Some t, Some ts => Some (t :: ts)
            | _, _ => None
            end
          else if Ascii.eqb c "<"%char then None
          else if Ascii.eqb c "034"%char || Ascii.eqb c "'"%char
          then lex s' (InTag (Some c)) (snoc cur c)
          else lex s' (InTag None) (snoc cur c)
      | InText =>
          if Ascii.eqb c "<"%char then
            match text_token cur, lex s' (InTag None) EmptyString with
            | Some t, Some ts => Some (t ++ ts)%list
            | _, _ => None
            end
          else lex s' InText (snoc cur c)
      end
  end.

(** An element under construction: its name as written, the default
    namespace in force, and its children so far, last first. *)
Record frame : Type :=
  { f_name : string;
    f_namespace : string;
    f_attrs : list (string * string);
    f_text : option string;
    f_children : list element }.

Definition add_text (fr : frame) (s : string) : frame :=
  match f_children fr with
  | [] =>
      {| f_name := f_name fr; f_namespace := f_namespace fr; f_attrs := f_attrs fr;
         f_text := Some (option_text (f_text fr) ++ s); f_children := [] |}
  | Element t a x tl cs :: older =>
      {| f_name := f_name fr; f_namespace := f_namespace fr; f_attrs := f_attrs fr;
         f_text := f_text fr;
         f_children := Element t a x (Some (option_text tl ++ s)) cs :: older |}
  end.

Definition add_child (fr : frame) (e : element) : frame :=
  {| f_name := f_name fr; f_namespace := f_namespace fr; f_attrs := f_attrs fr;
     f_text := f_text fr; f_children := e :: f_children fr |}.

Definition close_frame (fr : frame) : element :=
  Element (if (f_namespace fr =? "")%string then f_name fr
           else "{" ++ f_namespace fr ++ "}" ++ f_name fr)
          (f_attrs fr) (f_text fr) None (rev (f_children fr)).

Definition open_frame (name : string) (attrs : list (string * string))
    (stack : list frame) : frame :=
  let inherited :=
    match stack with
    | parent :: _ => f_namespace parent
    | [] => EmptyString
    end in
  {| f_name := name;
     f_namespace := match assoc_get "xmlns" attrs with
                    | Some uri => uri
                    | None => inherited
                    end;
     f_attrs := filter (fun kv => negb (fst kv =? "xmlns")%string) attrs;
     f_text := None;
     f_children := [] |}.

Fixpoint build (tokens : list token) (stack : list frame) (root : option element)
  : option element :=
  match tokens with
  | [] =>
      match stack with
      | [] => root
      | _ :: _ => None
      end
  | TSkip :: rest => build rest stack root
  | TText s :: rest =>
      match stack with
      | [] => if forallb is_xml_space (list_ascii_of_string s) then build rest [] root else None
      | fr :: above => build rest (add_text fr s :: above) root
      end
  | TOpen name attrs closed :: rest =>
      match stack, root with
      | [], Some _ => None
      | _, _ =>
          let fr := open_frame name attrs stack in
          if closed then
            match stack with
            | [] => build rest [] (Some (close_frame fr))
            | parent :: above => build rest (add_child parent (close_frame fr) :: above) root
            end
          else build rest (fr :: stack) root
      end
  | TClose name :: rest =>
      match stack with
      | [] => None
      | fr :: above =>
          if (f_name fr =? name)%string then
            match above with
            | [] => build rest [] (Some (close_frame fr))
            | parent :: above' =>
                build rest (add_child parent (close_frame fr) :: above') root
            end
          else None
      end
  end.

Definition xml_fromstring (s : string) : option element :=
  match lex s InText EmptyString with
  | Some tokens => build tokens [] None
  | None => None
  end.

(** *** The stack

    The nesting of an element: 1 for an element without children. *)
Fixpoint height (e : element) : nat :=
  match e with
  | Element _ _ _ _ cs => S (list_max (map height cs))
  end.

(** sys.getrecursionlimit() of an interpreter as it comes. *)
Definition recursion_limit : nat := 1000.

(** The frames of the script and the calls made at the deepest level take
    some of the limit, and which of the last levels below it fails depends
    on the state of the interpreter.  The reference gives up this many
    levels before the limit; documents and elements nested deeper than the
    limit itself fail in every interpreter. *)
Definition stack_margin : nat := 20.

Definition python : runtime :=
  {| float_of_str := py_float;
     str_of_float := py_repr;
     ET_fromstring := xml_fromstring;
     ET_tostring := fun e =>
       if (height e + stack_margin <=? recursion_limit)%nat
       then Ok (xml_tostring e) else Raise RecursionError;
     stack_room := fun level _ _ => (level + stack_margin <=? recursion_limit)%nat |}.

End Reference.

(** * Example inputs *)

Module Examples.

Import Reference.

(** The example of the specification: a 48x48 icon with a background rect
    and one path. *)
Definition home_svg : string :=
  "<svg viewBox='0 0 48 48'><rect width='48' height='48'/><path d='M10 10h28v28z'/></svg>".

(** An icon whose second shape is a rect with an x that is no number. *)
Definition broken_svg : string :=
  "<svg viewBox='0 0 48 48'><path d='M1 1'/><g><rect x='abc' width='5'/></g></svg>".

Definition broken_rect : element :=
  Element "rect" [("x", "abc"); ("width", "5")] None None [].

(** An icon with the same kind of rect, this time inside a circle. *)
Definition nested_svg : string :=
  "<svg><circle r='5'><rect x='abc'/></circle></svg>".

Definition nested_rect : element := Element "rect" [("x", "abc")] None None [].

Definition nested_circle : element :=
  Element "circle" [("r", "5")] None None [nested_rect].

(** An icon that is nothing but its background. *)
Definition blank_svg : string := "<svg viewBox='0 0 24 24'><path d=' M0 0h24v24H0z '/></svg>".

(** An icon whose viewBox has no width. *)
Definition flat_svg : string := "<svg viewBox='0 0 0 24'><path d='M1 1'/></svg>".

(** A file that is not XML. *)
Definition malformed_svg : string := "<svg><path d='M1 1'></svg>".

(** A path that carries a transform of its own. *)
Definition moved_path : element :=
  Element "path" [("transform", "translate(24,24)"); ("d", "M0 0h10v10z")] None None [].

Definition plain_path : element :=
  Element "{http://www.w3.org/2000/svg}path" [("d", "M3 18h18v-2H3v2z")] None None [].

(** A full-size background path under a viewBox of infinite width. *)
Definition background_path : element :=
  Element "path" [("d", "M0 0h24v24H0z")] None None [].

Definition viewbox_48 : viewbox := (PyFloat 0, PyFloat 0, PyFloat 48, PyFloat 48).
Definition viewbox_24 : viewbox := (PyFloat 0, PyFloat 0, PyFloat 24, PyFloat 24).
Definition viewbox_wide : viewbox := (PyFloat 0, PyFloat 0, PyFloat infinity, PyFloat 24).

(** Two trees that differ only below a circle. *)
Definition tree_with (below : list element) : element :=
  Element "svg" [] None None
    [ Element "g" [] None None
        [ plain_path; Element "circle" [("r", "5")] None None below ] ].

Definition listing : list svg_file :=
  [ ("home.svg", Some home_svg); ("broken.svg", Some broken_svg);
    ("alarm.svg", Some nested_svg) ].

Definition listing' : list svg_file :=
  [ ("alarm.svg", Some nested_svg); ("home.svg", Some home_svg);
    ("broken.svg", Some broken_svg) ].

Definition start : state :=
  {| sprite_content := [sprite_header]; processed_count := 0%nat; printed := [] |}.

End Examples.

(** * Further specification-side definitions *)

(** ** Lines of text *)

Fixpoint has_newline (s : string) : bool :=
  match s with
  | EmptyString => false
  | String c s' => Ascii.eqb c newline || has_newline s'
  end.

(** The indentation the formatting pass gives a trimmed line. *)
Definition indent_of (stripped : string) : string :=
  if startswith stripped "<symbol" then "  "
  else if startswith stripped "<path" then "    "
  else if startswith stripped "</symbol>" then "  "
  else "".

(** The lines the formatting pass keeps of a text, formatted. *)
Definition formatted_lines (content : string) : list string :=
  flat_map optimize_line (split_lines content).

(** ** The report of a run *)

(** The file a status line is about. *)
Definition file_status (ev : event) : option string :=
  match ev with
  | Processed icon_name | Skipped icon_name | ErrorProcessing icon_name => Some icon_name
  | _ => None
  end.

Definition is_processed (ev : event) : bool :=
  match ev with
  | Processed _ => true
  | _ => false
  end.

Fixpoint statuses (evs : list event) : list string :=
  match evs with
  | [] => []
  | ev :: evs' =>
      match file_status ev with
      | Some icon_name => icon_name :: statuses evs'
      | None => statuses evs'
      end
  end.

Section Report.

Variable rt : runtime.

(** What one file makes the run print. *)
Definition events_of (f : svg_file) : list event :=
  match snd f with
  | None => [ErrorProcessing (stem (fst f))]
  | Some content =>
      snd (extract_icon_elements rt content)
        ++ [if yields_elements rt f
            then (if serializes rt f then Processed (stem (fst f))
                  else ErrorProcessing (stem (fst f)))
            else Skipped (stem (fst f))]
  end.

(** The lines of one file after the formatting pass: for a file that
    yields elements, the opening line, the formatted lines of the elements
    up to the first that cannot be serialized, and the closing line if there
    is none such. *)
Definition formatted_block (f : svg_file) : list string :=
  match retained rt f with
  | [] => []
  | _ :: _ =>
      [symbol_open (stem (fst f))]
      ++ flat_map formatted_lines (serialized_prefix rt (retained rt f))
      ++ (if serializes rt f then [symbol_close] else [])
  end.

(** The stack has room for every element the walk below [parent] visits,
    the children of [parent] being at [level]. *)
Fixpoint has_room (level : nat) (parent : element) : bool :=
  match parent with
  | Element _ _ _ _ cs =>
      forallb (fun c => stack_room rt level (tag c) (attrib c)
                        && (is_drawable c || has_room (S level) c)) cs
  end.

End Report.

(** A viewBox attribute that [parse_viewbox] does not accept: it does not
    split at whitespace into four tokens, or one of its tokens does not read
    as a float. *)
Definition malformed_viewbox (rt : runtime) (s : string) : Prop :=
  List.length (py_split s) <> 4%nat
  \/ exists tok, In tok (py_split s) /\ float_of_str rt tok = None.

(** A viewBox without area: its width or its height [== 0]. *)
Definition zero_size (vb : viewbox) : bool :=
  let '(_, _, vw, vh) := vb in
  num_eqb vw (PyInt 0) || num_eqb vh (PyInt 0).


(** ** More example inputs *)

Module Samples.

Import Reference.

(** An icon whose viewBox has three numbers. *)
Definition short_svg : string :=
  "<svg viewBox='0 0 48'><path d='M10 10h28v28z'/></svg>".

(** An icon with an offset 24x24 viewBox. *)
Definition offset_viewbox : viewbox := (PyFloat 2, PyFloat 3, PyFloat 24, PyFloat 24).

Definition circle : element := Element "circle" [("r", "5"); ("cx", "12")] None None [].

Fixpoint repeat_string (s : string) (n : nat) : string :=
  match n with
  | O => ""
  | S n' => s ++ repeat_string s n'
  end.


(** An icon whose one path lies inside 1200 groups. *)
Definition deep_groups_svg : string :=
  "<svg>" ++ repeat_string "<g>" 1200 ++ "<path d='M1 1'/>" ++ repeat_string "</g>" 1200
    ++ "</svg>".

End Samples.

(** A string that does not begin with whitespace. *)
Definition no_leading_space (s : string) : bool :=
  match s with
  | EmptyString => true
  | String c _ => negb (is_space c)
  end.

Fixpoint has_brace (s : string) : bool :=
  match s with
  | EmptyString => false
  | String c s' => Ascii.eqb c "}"%char || has_brace s'
  end.

(** The exceptions the collection can raise. *)
Definition collection_error (ex : exn) : bool :=
  match ex with
  | ValueError | OverflowError | ZeroDivisionError | RecursionError => true
  | ParseError => false
  end.

(** The exceptions the classifier and the normalizer raise. *)
Definition element_error (ex : exn) : bool :=
  match ex with
  | ValueError | OverflowError | ZeroDivisionError => true
  | RecursionError | ParseError => false
  end.


(** * Properties of the script *)

(** ** Attribute dictionaries *)

Lemma assoc_get_set_same (k v : string) (l : list (string * string)) :
  assoc_get k (assoc_set k v l) = Some v.
Proof.
  induction l as [| [k' v'] l IH]; simpl.
  - now rewrite String.eqb_refl.
  - destruct (k' =? k)%string eqn:E; simpl; rewrite E; auto.
Qed.

Lemma assoc_get_set_other (k k' v : string) (l : list (string * string)) :
  k' <> k -> assoc_get k' (assoc_set k v l) = assoc_get k' l.
Proof.
  intros Hne. induction l as [| [k0 v0] l IH]; simpl.
  - destruct (k =? k')%string eqn:E; auto.
    apply String.eqb_eq in E. congruence.
  - destruct (k0 =? k)%string eqn:E; simpl.
    + apply String.eqb_eq in E. subst k0.
      destruct (k =? k')%string eqn:E'; auto.
      apply String.eqb_eq in E'. congruence.
    + destruct (k0 =? k')%string; auto.
Qed.

Lemma get_set_same (e : element) (k v : string) : get (set e k v) k = Some v.
Proof. apply assoc_get_set_same. Qed.

Lemma get_set_other (e : element) (k k' v : string) :
  k' <> k -> get (set e k v) k' = get e k'.
Proof. apply assoc_get_set_other. Qed.

Section Classifier.

Variable rt : runtime.

Lemma float_attr_value (e : element) (k : string) :
  float_attr rt e k =
    match attr_value rt e k with
    | Some f => Ok f
    | None => Raise ValueError
    end.
Proof.
  unfold float_attr, attr_value. destruct (get e k); auto.
Qed.

Lemma background_patterns_list (vb : viewbox) :
  background_patterns rt vb =
    (let '(_, _, vw, vh) := vb in
     match py_int vw with
     | Raise ex => Raise ex
     | Ok _ => match py_int vh with
               | Raise ex => Raise ex
               | Ok _ => Ok (pattern_list rt vb)
               end
     end).
Proof.
  destruct vb as [[[vx vy] vw] vh]. unfold background_patterns, pattern_list.
  destruct (py_int vw); simpl; auto. destruct (py_int vh); simpl; auto.
Qed.

(** The classifier, case by case: what it returns and when it raises. *)
Lemma is_background_element_cases (e : element) (vb : viewbox) :
  is_background_element rt e vb =
    match classification_error rt e vb with
    | Some ex => Raise ex
    | None => Ok (matches_a_rule rt e vb)
    end.
Proof.
  unfold is_background_element, classification_error, matches_a_rule, rule_a.
  destruct (option_eqb (get e "fill") "none") eqn:Ha; [reflexivity |].
  cbn [orb]. unfold rule_b, rule_c.
  destruct (local_name (tag e) =? "path")%string eqn:Hp.
  - assert (Hr : (local_name (tag e) =? "rect")%string = false).
    { apply String.eqb_eq in Hp. rewrite Hp. reflexivity. }
    rewrite Hr, background_patterns_list.
    destruct vb as [[[vx vy] vw] vh].
    destruct (py_int vw); cbn [bind]; auto.
    destruct (py_int vh); cbn [bind]; auto.
    cbn [andb]. rewrite orb_false_r.
    destruct (existsb _ _); reflexivity.
  - cbn [bind andb orb].
    destruct (local_name (tag e) =? "rect")%string eqn:Hr; [| reflexivity].
    rewrite !float_attr_value.
    destruct (attr_value rt e "x"); cbn [bind andb]; auto.
    destruct (attr_value rt e "y"); cbn [bind]; auto.
    destruct (attr_value rt e "width"); cbn [bind]; auto.
    destruct (attr_value rt e "height"); cbn [bind]; auto.
    destruct vb as [[[vx vy] vw] vh]. reflexivity.
Qed.

(** C4, as amended.  Whenever the background classifier returns, it returns
    true exactly for the elements matched by one of the rules (a)-(c), and
    false for every other element, which is then retained.  It returns
    nothing and raises exactly when [classification_error] says so: for a
    path, without fill="none", under a viewBox whose width or height has no
    integer value, and for a rect, without fill="none", one of whose present
    x, y, width, height does not read as a float. *)
Theorem is_background_element_rules (e : element) (vb : viewbox) :
  (is_background_element rt e vb = Ok true
     <-> classification_error rt e vb = None
         /\ (rule_a e = true \/ rule_b rt e vb = true \/ rule_c rt e vb = true))
  /\ (is_background_element rt e vb = Ok false
     <-> classification_error rt e vb = None
         /\ rule_a e = false /\ rule_b rt e vb = false /\ rule_c rt e vb = false)
  /\ (forall ex,
        is_background_element rt e vb = Raise ex
        <-> classification_error rt e vb = Some ex)
  /\ (rule_a e = true -> is_background_element rt e vb = Ok true).
Proof.
  pose proof (is_background_element_cases e vb) as H.
  assert (Hm : matches_a_rule rt e vb = true
               <-> rule_a e = true \/ rule_b rt e vb = true \/ rule_c rt e vb = true).
  { unfold matches_a_rule. rewrite !orb_true_iff. tauto. }
  assert (Hn : matches_a_rule rt e vb = false
               <-> rule_a e = false /\ rule_b rt e vb = false /\ rule_c rt e vb = false).
  { unfold matches_a_rule. rewrite !orb_false_iff. tauto. }
  destruct (classification_error rt e vb) as [ex0 |] eqn:E; rewrite H.
  - repeat split; try (intros; discriminate); try (intros [? _]; discriminate);
      try congruence.
    intros Ha. unfold classification_error in E. now rewrite Ha in E.
  - split; [| split; [| split]].
    + rewrite <- Hm. split; [intros [= ->]; auto | intros [_ ->]; auto].
    + rewrite <- Hn. split; [intros [= ->]; auto | intros [_ ->]; auto].
    + intros ex. split; intros; discriminate.
    + intros Ha. f_equal. apply Hm. now left.
Qed.

(** A rect with a geometry attribute that does not read as a float makes
    the classifier raise [ValueError]. *)
Lemma unparsable_rect_raises (e : element) (vb : viewbox) :
  local_name (tag e) = "rect" ->
  get e "fill" <> Some "none" ->
  unparsable_geometry rt e ->
  is_background_element rt e vb = Raise ValueError.
Proof.
  intros Htag Hfill (k & s & Hk & Hget & Hbad).
  rewrite is_background_element_cases.
  unfold classification_error, rule_a.
  assert (Ha : option_eqb (get e "fill") "none" = false).
  { destruct (get e "fill") as [v |] eqn:E; simpl; auto.
    apply String.eqb_neq. intros ->. now apply Hfill. }
  rewrite Ha, Htag. cbn [String.eqb Ascii.eqb Bool.eqb].
  assert (Hv : attr_value rt e k = None).
  { unfold attr_value. now rewrite Hget. }
  simpl in Hk.
  destruct Hk as [<- | [<- | [<- | [<- | []]]]]; rewrite Hv;
    repeat (destruct (attr_value rt e _)); reflexivity.
Qed.

End Classifier.

Section Normalize.

Variable rt : runtime.

(** C5.  Under a viewBox equal to (0,0,24,24) the normalizer returns the
    element with its fill set to currentColor: no transform attribute is
    added, and the tag, every other attribute, the text, the tail and the
    children are those of the element. *)
Theorem normalize_default_viewbox (e : element) (vb : viewbox) :
  viewbox_eqb vb default_viewbox = true ->
  exists n,
    normalize_element_to_24x24 rt e vb = Ok n
    /\ n = set e "fill" "currentColor"
    /\ get n "fill" = Some "currentColor"
    /\ get n "transform" = get e "transform"
    /\ (forall k, k <> "fill" -> get n k = get e k)
    /\ tag n = tag e /\ text n = text e /\ tail n = tail e
    /\ children n = children e.
Proof.
  intros Hvb. exists (set e "fill" "currentColor").
  unfold normalize_element_to_24x24. rewrite Hvb.
  repeat split; auto.
  - apply get_set_same.
  - apply get_set_other. discriminate.
  - intros k Hk. now apply get_set_other.
Qed.

(** What the normalizer leaves in the transform attribute of an element
    that has one, under a viewBox that is not the default: the attribute it
    had, a space, and the normalization transform. *)
Lemma normalize_existing_transform (e : element) (vb : viewbox)
    (p : number * number * number * number) (existing : string) :
  viewbox_eqb vb default_viewbox = false ->
  scale_translate py_arith vb = Ok p ->
  build_transforms py_arith p <> [] ->
  get e "transform" = Some existing ->
  existing <> "" ->
  exists n,
    normalize_element_to_24x24 rt e vb = Ok n
    /\ get n "transform" =
         Some (existing ++ " " ++ join " " (map (render rt) (build_transforms py_arith p)))%string
    /\ get n "fill" = Some "currentColor".
Proof.
  intros Hvb Hp Hne Hget Hex.
  unfold normalize_element_to_24x24. rewrite Hvb, Hp. simpl.
  destruct (build_transforms py_arith p) as [| t ts] eqn:Ets; [congruence |].
  cbn [map].
  unfold get_default. rewrite Hget.
  apply String.eqb_neq in Hex. rewrite Hex.
  eexists. split; [reflexivity |]. split.
  - rewrite get_set_other by discriminate. apply get_set_same.
  - apply get_set_same.
Qed.

End Normalize.

(** ** The collector *)

(** Induction on an element with the property known for its children. *)
Lemma element_children_ind (P : element -> Prop) :
  (forall e, Forall P (children e) -> P e) ->
  forall e, P e.
Proof.
  intros H. fix IH 1. intros [t a tx tl cs]. apply H. simpl.
  induction cs as [| c cs IHcs]; constructor; auto.
Qed.

Lemma same_node_refl (e : element) : same_node e e.
Proof. repeat split. Qed.

Lemma Forall2_same_node_refl (l : list element) : Forall2 same_node l l.
Proof. induction l; constructor; auto using same_node_refl. Qed.

Lemma same_node_is_drawable (e1 e2 : element) :
  same_node e1 e2 -> is_drawable e2 = is_drawable e1.
Proof. intros (Ht & _). unfold is_drawable. now rewrite Ht. Qed.

Section Collector.

Variable rt : runtime.
Variable vb : viewbox.

Lemma collect_elements_unfold (parent : element) (acc : list element) :
  collect_elements rt vb parent acc =
    collect_loop rt vb (collect_elements rt vb) (children parent) acc.
Proof. destruct parent; reflexivity. Qed.

Lemma classify_all_app (es1 es2 acc : list element) :
  classify_all rt vb (es1 ++ es2) acc =
    match classify_all rt vb es1 acc with
    | (Ok _, acc') => classify_all rt vb es2 acc'
    | (Raise ex, acc') => (Raise ex, acc')
    end.
Proof.
  revert acc. induction es1 as [| e es1 IH]; intros acc; simpl; auto.
  destruct (is_background_element rt e vb) as [[|] | ex]; auto.
  destruct (normalize_element_to_24x24 rt e vb); auto.
Qed.

(** The recursive walk is the flat loop over the elements it reaches. *)
Lemma collect_elements_reached (parent : element) (acc : list element) :
  collect_elements rt vb parent acc = classify_all rt vb (reached parent) acc.
Proof.
  revert acc. induction parent as [parent IH] using element_children_ind.
  intros acc. rewrite collect_elements_unfold.
  destruct parent as [t a tx tl cs]. cbn [children reached] in *.
  revert acc. induction IH as [| c cs Hc _ IHcs]; intros acc; [reflexivity |].
  cbn [collect_loop flat_map].
  destruct (is_drawable c) eqn:Hd.
  - cbn [app classify_all].
    destruct (is_background_element rt c vb) as [[|] | ex]; auto.
    destruct (normalize_element_to_24x24 rt c vb); auto.
  - rewrite classify_all_app, Hc.
    destruct (classify_all rt vb (reached c) acc) as [[[] | ex] acc']; auto.
Qed.

(** The classifier and the normalizer read the tag and the attributes of an
    element, never its children. *)
Lemma is_background_element_same_node (e1 e2 : element) :
  same_node e1 e2 ->
  is_background_element rt e2 vb = is_background_element rt e1 vb.
Proof.
  destruct e1, e2. intros (Ht & Ha & _). simpl in Ht, Ha. subst. reflexivity.
Qed.

Lemma normalize_same_node (e1 e2 : element) :
  same_node e1 e2 ->
  match normalize_element_to_24x24 rt e1 vb, normalize_element_to_24x24 rt e2 vb with
  | Ok n1, Ok n2 =>
      same_node n1 n2 /\ children n1 = children e1 /\ children n2 = children e2
  | Raise ex1, Raise ex2 => ex1 = ex2
  | _, _ => False
  end.
Proof.
  destruct e1 as [t1 a1 x1 l1 c1], e2 as [t2 a2 x2 l2 c2].
  intros (Ht & Ha & Hx & Hl). simpl in Ht, Ha, Hx, Hl. subst.
  unfold normalize_element_to_24x24.
  destruct (viewbox_eqb vb default_viewbox).
  - repeat split.
  - destruct (scale_translate py_arith vb) as [p | ex]; cbn [bind]; auto.
    destruct (map (render rt) (build_transforms py_arith p)); [repeat split |].
    unfold get_default, get. cbn [attrib].
    destruct (assoc_get "transform" a2) as [v |]; [| repeat split].
    destruct (v =? "")%string; repeat split.
Qed.

Lemma classify_all_same_node (es1 es2 : list element) :
  Forall2 same_node es1 es2 ->
  forall acc1 acc2, Forall2 same_node acc1 acc2 ->
  fst (classify_all rt vb es2 acc2) = fst (classify_all rt vb es1 acc1)
  /\ Forall2 same_node (snd (classify_all rt vb es1 acc1))
                       (snd (classify_all rt vb es2 acc2)).
Proof.
  induction 1 as [| e1 e2 es1 es2 He Hes IH]; intros acc1 acc2 Hacc; simpl; auto.
  rewrite (is_background_element_same_node e1 e2 He).
  destruct (is_background_element rt e1 vb) as [[|] | ex]; simpl; auto.
  pose proof (normalize_same_node e1 e2 He) as Hn.
  destruct (normalize_element_to_24x24 rt e1 vb) as [n1 | ex1],
           (normalize_element_to_24x24 rt e2 vb) as [n2 | ex2];
    try contradiction; simpl.
  - apply IH. apply Forall2_app; auto. constructor; [tauto | constructor].
  - subst. auto.
Qed.

Lemma collect_elements_on_stack_unfold (level : nat) (parent : element)
    (acc : list element) :
  collect_elements_on_stack rt vb level parent acc =
    collect_loop_on_stack rt vb level (collect_elements_on_stack rt vb (S level))
      (children parent) acc.
Proof. destruct parent; reflexivity. Qed.

(** On the stack the walk does what the recursive function does, until it
    runs out of room: then it raises [RecursionError]. *)
Lemma on_stack_cases (parent : element) :
  forall level acc,
    collect_elements_on_stack rt vb level parent acc = collect_elements rt vb parent acc
    \/ exists collected,
         collect_elements_on_stack rt vb level parent acc
           = (Raise RecursionError, collected).
Proof.
  induction parent as [parent IH] using element_children_ind.
  intros level acc.
  rewrite collect_elements_on_stack_unfold, collect_elements_unfold.
  destruct parent as [t a tx tl cs]. cbn [children] in *.
  revert acc. induction IH as [| c cs Hc _ IHcs]; intros acc; [now left |].
  cbn [collect_loop_on_stack collect_loop].
  destruct (stack_room rt level (tag c) (attrib c)); cbn [negb]; [| right; eauto].
  destruct (is_drawable c).
  - destruct (is_background_element rt c vb) as [[|] | ex]; auto.
    destruct (normalize_element_to_24x24 rt c vb); auto.
  - destruct (Hc (S level) acc) as [-> | [collected ->]]; [| right; eauto].
    destruct (collect_elements rt vb c acc) as [[[] | ex] acc']; auto.
Qed.

Lemma on_stack_ok (parent : element) (level : nat) (acc out : list element) :
  collect_elements_on_stack rt vb level parent acc = (Ok tt, out) ->
  collect_elements rt vb parent acc = (Ok tt, out).
Proof.
  intros H. destruct (on_stack_cases parent level acc) as [E | [c E]];
    rewrite E in H; [exact H | discriminate].
Qed.

Lemma on_stack_raises (parent : element) (level : nat) (acc collected : list element)
    (ex : exn) :
  collect_elements_on_stack rt vb level parent acc = (Raise ex, collected) ->
  ex = RecursionError \/ collect_elements rt vb parent acc = (Raise ex, collected).
Proof.
  intros H. destruct (on_stack_cases parent level acc) as [E | [c E]];
    rewrite E in H; [now right | left; congruence].
Qed.

(** With room for every element it visits, the walk on the stack is the
    recursive function. *)
Lemma has_room_collect (parent : element) :
  forall level acc,
    has_room rt level parent = true ->
    collect_elements_on_stack rt vb level parent acc = collect_elements rt vb parent acc.
Proof.
  induction parent as [parent IH] using element_children_ind.
  intros level acc.
  rewrite collect_elements_on_stack_unfold, collect_elements_unfold.
  destruct parent as [t a tx tl cs]. cbn [children has_room] in *.
  revert acc. induction IH as [| c cs Hc _ IHcs]; intros acc Hroom; [reflexivity |].
  cbn [forallb] in Hroom. apply andb_true_iff in Hroom as [Hc' Hcs].
  apply andb_true_iff in Hc' as [Hr Hd].
  cbn [collect_loop_on_stack collect_loop]. rewrite Hr. cbn [negb].
  destruct (is_drawable c).
  - destruct (is_background_element rt c vb) as [[|] | ex]; auto.
    destruct (normalize_element_to_24x24 rt c vb); auto.
  - cbn [orb] in Hd. rewrite (Hc (S level) acc Hd).
    destruct (collect_elements rt vb c acc) as [[[] | ex] acc']; auto.
Qed.

End Collector.

Lemma reached_same_above_drawables (p1 : element) :
  forall p2,
    Forall2 same_above_drawables (children p1) (children p2) ->
    Forall2 same_node (reached p1) (reached p2).
Proof.
  induction p1 as [p1 IH] using element_children_ind.
  intros p2 H. destruct p1 as [t1 a1 x1 l1 cs1], p2 as [t2 a2 x2 l2 cs2].
  cbn [children reached] in *.
  induction H as [| c1 c2 cs1 cs2 Hc Hcs IHcs]; [constructor |].
  inversion IH as [| ? ? IHc IHrest]; subst.
  cbn [flat_map]. apply Forall2_app; [| now apply IHcs].
  inversion Hc as [? ? Hd Hn | ? ? Hd Hn Hch]; subst;
    rewrite (same_node_is_drawable _ _ Hn), Hd.
  - constructor; [assumption | constructor].
  - now apply IHc.
Qed.

(** The walk on the stack does not look below drawable elements either. *)
Lemma on_stack_same_above_drawables (rt : runtime) (vb : viewbox) (p1 : element) :
  forall p2 level acc1 acc2,
    Forall2 same_above_drawables (children p1) (children p2) ->
    Forall2 same_node acc1 acc2 ->
    fst (collect_elements_on_stack rt vb level p2 acc2)
      = fst (collect_elements_on_stack rt vb level p1 acc1)
    /\ Forall2 same_node (snd (collect_elements_on_stack rt vb level p1 acc1))
                         (snd (collect_elements_on_stack rt vb level p2 acc2)).
Proof.
  induction p1 as [p1 IH] using element_children_ind.
  intros p2 level acc1 acc2 H.
  rewrite !collect_elements_on_stack_unfold.
  destruct p1 as [t1 a1 x1 l1 cs1], p2 as [t2 a2 x2 l2 cs2]. cbn [children] in *.
  revert acc1 acc2.
  induction H as [| c1 c2 cs1 cs2 Hc Hcs IHcs]; intros acc1 acc2 Hacc; [auto |].
  inversion IH as [| ? ? IHc IHrest]; subst.
  specialize (IHcs IHrest).
  cbn [collect_loop_on_stack].
  assert (Hn : same_node c1 c2) by (inversion Hc; assumption).
  destruct Hn as (Ht & Ha & Hx & Hl).
  rewrite <- Ht, <- Ha.
  destruct (stack_room rt level (tag c1) (attrib c1)); cbn [negb]; [| auto].
  assert (Hn : same_node c1 c2) by (repeat split; assumption).
  rewrite (same_node_is_drawable _ _ Hn).
  inversion Hc as [? ? Hd _ | ? ? Hd _ Hch]; subst; rewrite Hd.
  - rewrite (is_background_element_same_node rt vb c1 c2 Hn).
    destruct (is_background_element rt c1 vb) as [[|] | ex]; cbn [fst snd]; auto.
    pose proof (normalize_same_node rt vb c1 c2 Hn) as Hnorm.
    destruct (normalize_element_to_24x24 rt c1 vb) as [n1 | ex1],
             (normalize_element_to_24x24 rt c2 vb) as [n2 | ex2];
      try contradiction.
    + apply IHcs. apply Forall2_app; auto. constructor; [tauto | constructor].
    + subst. auto.
  - destruct (IHc c2 (S level) acc1 acc2 Hch Hacc) as [Hf Hs].
    destruct (collect_elements_on_stack rt vb (S level) c1 acc1) as [[[] | ex1] o1],
             (collect_elements_on_stack rt vb (S level) c2 acc2) as [[[] | ex2] o2];
      cbn [fst snd] in *; try discriminate.
    + now apply IHcs.
    + split; [exact Hf | exact Hs].
Qed.

(** What the flat loop appends when no exception leaves it: the
    normalizations of the elements that match no rule, in order. *)
Lemma classify_all_ok (rt : runtime) (vb : viewbox) (es : list element) :
  forall acc out,
    classify_all rt vb es acc = (Ok tt, out) ->
    exists new,
      out = acc ++ new
      /\ Forall2 (fun e n => normalize_element_to_24x24 rt e vb = Ok n)
           (filter (fun e => negb (matches_a_rule rt e vb)) es) new.
Proof.
  induction es as [| e es IH]; intros acc out H; simpl in H.
  - inversion H; subst. exists []. split; [now rewrite app_nil_r | constructor].
  - pose proof (is_background_element_cases rt e vb) as Hb.
    destruct (is_background_element rt e vb) as [b | ex] eqn:E; [| discriminate].
    destruct (classification_error rt e vb); [discriminate |].
    inversion Hb; subst b. cbn [filter].
    destruct (matches_a_rule rt e vb); cbn [negb]; [now apply IH |].
    destruct (normalize_element_to_24x24 rt e vb) as [n |] eqn:En; [| discriminate].
    destruct (IH _ _ H) as (new & -> & Hnew).
    exists (n :: new). split; [now rewrite <- app_assoc | now constructor].
Qed.

Lemma classify_all_raises (rt : runtime) (vb : viewbox) (r : element) (ex : exn)
    (es : list element) :
  In r es ->
  is_background_element rt r vb = Raise ex ->
  forall acc, exists ex' collected,
    classify_all rt vb es acc = (Raise ex', collected).
Proof.
  intros Hin Hr. induction es as [| e es IH]; [contradiction |].
  intros acc. simpl.
  destruct Hin as [-> | Hin].
  - rewrite Hr. eauto.
  - destruct (is_background_element rt e vb) as [[|] | ex1]; eauto.
    destruct (normalize_element_to_24x24 rt e vb); eauto.
Qed.

(** C9.  The collector's walk over a tree is the flat loop over the
    drawable elements that have no drawable element above them: an element
    below a drawable element is never classified, never normalized and never
    appended.  What is appended are the normalizations of the reached
    elements that match no rule, in document order; and replacing what is
    below the drawable elements of the tree changes neither the outcome nor
    (up to the children they carry along) the elements collected.  The last
    three parts say the same of the walk on the interpreter's stack: it does
    not look below drawable elements either, it is the recursive function
    unless it runs out of room and raises RecursionError, and what it returns
    when it returns is what the recursive function returns. *)
Theorem collector_stops_at_drawables (rt : runtime) (vb : viewbox)
    (parent : element) (acc : list element) :
  collect_elements rt vb parent acc = classify_all rt vb (reached parent) acc
  /\ (forall out,
        collect_elements rt vb parent acc = (Ok tt, out) ->
        exists new,
          out = acc ++ new
          /\ Forall2 (fun e n => normalize_element_to_24x24 rt e vb = Ok n)
               (filter (fun e => negb (matches_a_rule rt e vb)) (reached parent)) new)
  /\ (forall parent',
        Forall2 same_above_drawables (children parent) (children parent') ->
        fst (collect_elements rt vb parent' acc) = fst (collect_elements rt vb parent acc)
        /\ Forall2 same_node (snd (collect_elements rt vb parent acc))
                             (snd (collect_elements rt vb parent' acc)))
  /\ (forall level parent',
        Forall2 same_above_drawables (children parent) (children parent') ->
        fst (collect_elements_on_stack rt vb level parent' acc)
          = fst (collect_elements_on_stack rt vb level parent acc)
        /\ Forall2 same_node (snd (collect_elements_on_stack rt vb level parent acc))
                             (snd (collect_elements_on_stack rt vb level parent' acc)))
  /\ (forall level,
        collect_elements_on_stack rt vb level parent acc = collect_elements rt vb parent acc
        \/ exists collected,
             collect_elements_on_stack rt vb level parent acc
               = (Raise RecursionError, collected))
  /\ (forall level out,
        collect_elements_on_stack rt vb level parent acc = (Ok tt, out) ->
        exists new,
          out = acc ++ new
          /\ Forall2 (fun e n => normalize_element_to_24x24 rt e vb = Ok n)
               (filter (fun e => negb (matches_a_rule rt e vb)) (reached parent)) new).
Proof.
  split; [apply collect_elements_reached |]. split; [| split; [| split; [| split]]].
  - intros out H. rewrite collect_elements_reached in H.
    now apply classify_all_ok.
  - intros parent' H. rewrite !collect_elements_reached.
    apply classify_all_same_node.
    + now apply reached_same_above_drawables.
    + apply Forall2_same_node_refl.
  - intros level parent' H.
    apply on_stack_same_above_drawables; [exact H | apply Forall2_same_node_refl].
  - intros level. apply on_stack_cases.
  - intros level out H. apply on_stack_ok in H.
    rewrite collect_elements_reached in H. now apply classify_all_ok.
Qed.

(** ** Binary64 arithmetic *)

Lemma float_of_int_0 : float_of_int 0 = 0%float.
Proof. reflexivity. Qed.

Lemma float_of_int_24 : float_of_int 24 = 24%float.
Proof. vm_compute. reflexivity. Qed.






(** [f == 0] *)
Lemma num_eqb_zero (f : float) :
  num_eqb (PyFloat f) (PyInt 0)
    = match Prim2SF f with
      | S754_zero _ => true
      | _ => false
      end.
Proof.
  unfold num_eqb, num_compare, compare_int_float.
  destruct (Prim2SF f) as [s | s | | s m e]; try reflexivity.
  - destruct s; reflexivity.
  - cbn [option_map].
    destruct (0 <=? e) eqn:He.
    + apply Z.leb_le in He.
      assert (0 < Z.shiftl (Z.pos m) e).
      { rewrite Z.shiftl_mul_pow2 by assumption.
        apply Z.mul_pos_pos; [lia | now apply Z.pow_pos_nonneg]. }
      destruct s; cbn [cond_Zopp];
        destruct (0 ?= _) eqn:E; try reflexivity;
        apply Z.compare_eq in E; lia.
    + rewrite Z.shiftl_0_l. destruct s; reflexivity.
Qed.

Lemma num_eqb_zero_opp (f : float) :
  num_eqb (PyFloat (- f)%float) (PyInt 0) = num_eqb (PyFloat f) (PyInt 0).
Proof.
  rewrite !num_eqb_zero, opp_spec. destruct (Prim2SF f); reflexivity.
Qed.

Lemma num_eqb_zero_finite (f : float) :
  num_eqb (PyFloat f) (PyInt 0) = true -> is_finite f = true.
Proof.
  rewrite num_eqb_zero. unfold is_finite. destruct (Prim2SF f); congruence.
Qed.

(** *** Multiplying by one *)



Lemma Prim2SF_one : Prim2SF 1%float = S754_finite false one_mantissa (-52).
Proof. reflexivity. Qed.


Lemma digits2_pos_shift52 (m : positive) :
  Z.pos (digits2_pos (Pos.mul one_mantissa m)) = Z.pos (digits2_pos m) + 52.
Proof.
  unfold one_mantissa. cbn [Pos.mul digits2_pos].
  rewrite !Pos2Z.inj_succ. lia.
Qed.

Lemma shr_52 (m : positive) :
  iter_pos shr_1 52 {| shr_m := Z.pos (Pos.mul one_mantissa m); shr_r := false; shr_s := false |}
    = {| shr_m := Z.pos m; shr_r := false; shr_s := false |}.
Proof. reflexivity. Qed.

Lemma binary_round_aux_times_one (s : bool) (m : positive) (e : Z) :
  bounded prec emax m e = true ->
  binary_round_aux prec emax s (Z.pos (Pos.mul m one_mantissa)) (e + -52) loc_Exact
    = S754_finite s m e.
Proof.
  intros Hb. unfold bounded, canonical_mantissa in Hb.
  apply andb_prop in Hb as [Hc Hle]. apply Z.eqb_eq in Hc.
  rewrite Pos.mul_comm.
  unfold binary_round_aux, shr_fexp. cbn [Zdigits2 shr_record_of_loc].
  rewrite digits2_pos_shift52.
  replace (Z.pos (digits2_pos m) + 52 + (e + -52)) with (Z.pos (digits2_pos m) + e) by lia.
  rewrite Hc.
  replace (e - (e + -52)) with 52 by lia.
  cbn [shr]. rewrite shr_52.
  cbn [shr_m loc_of_shr_record round_nearest_even Zdigits2 shr_record_of_loc].
  replace (e + -52 + 52) with e by lia.
  rewrite Hc, Z.sub_diag. cbn [shr shr_m]. now rewrite Hle.
Qed.

(** [x * 1] is [x]. *)
Lemma mul_one_r (x : float) : (x * 1)%float = x.
Proof.
  apply Prim2SF_inj. rewrite mul_spec, Prim2SF_one.
  pose proof (Prim2SF_valid x) as Hv.
  destruct (Prim2SF x) as [s | s | | s m e]; cbn [SF64mul SFmul]; try reflexivity.
  - now rewrite xorb_false_r.
  - now rewrite xorb_false_r.
  - unfold SF64mul, SFmul. rewrite xorb_false_r.
    now apply binary_round_aux_times_one.
Qed.

(** *** One coordinate of the top-left corner, in binary64 *)

Section Coordinate.

Variables x s : float.
Hypothesis Hfin : is_finite (x * s)%float = true.





End Coordinate.

Lemma scale_translate_floats (x y w h : float) :
  num_eqb (PyFloat w) (PyInt 0) = false ->
  num_eqb (PyFloat h) (PyInt 0) = false ->
  scale_translate py_arith (PyFloat x, PyFloat y, PyFloat w, PyFloat h)
    = Ok (PyFloat (24 / w), PyFloat (24 / h),
          PyFloat (- x * (24 / w)), PyFloat (- y * (24 / h)))%float.
Proof.
  intros Hw Hh. unfold scale_translate.
  cbn [py_arith a_div a_int a_mul a_neg]. unfold num_div. rewrite Hw, Hh.
  cbn [bind num_neg num_mul to_float]. now rewrite float_of_int_24.
Qed.


(** *** The same formulas in exact arithmetic *)




(** * Further properties of the script *)

(** ** parse_viewbox *)

Lemma traverse_Some {A B : Type} (f : A -> option B) (l : list A) (bs : list B) :
  traverse f l = Some bs -> map f l = map Some bs.
Proof.
  revert bs. induction l as [| a l IH]; intros bs H; simpl in H.
  - now inversion H.
  - destruct (f a) as [b |] eqn:Ea; [| discriminate].
    destruct (traverse f l) as [bs' |]; [| discriminate].
    inversion H; subst. simpl. now rewrite Ea, (IH bs').
Qed.

Lemma traverse_None {A B : Type} (f : A -> option B) (l : list A) :
  traverse f l = None -> exists a, In a l /\ f a = None.
Proof.
  induction l as [| a l IH]; simpl; [discriminate |].
  destruct (f a) as [b |] eqn:Ea; [| intros _; exists a; auto].
  destruct (traverse f l) as [bs' |]; [discriminate |].
  intros _. destruct IH as (a' & Hin & Ha'); auto. exists a'. auto.
Qed.

Section Viewbox.

Variable rt : runtime.

Lemma parse_viewbox_malformed (s : string) :
  malformed_viewbox rt s -> parse_viewbox rt s = default_viewbox.
Proof.
  unfold parse_viewbox. intros [Hlen | (tok & Hin & Htok)].
  - destruct (traverse (float_of_str rt) (py_split s)) as [bs |] eqn:E; [| reflexivity].
    apply traverse_Some in E. apply (f_equal (@List.length _)) in E.
    rewrite !length_map in E.
    destruct bs as [| x [| y [| w [| h [| ? ?]]]]]; try reflexivity.
    now rewrite E in Hlen.
  - destruct (traverse (float_of_str rt) (py_split s)) as [bs |] eqn:E; [| reflexivity].
    apply traverse_Some in E.
    assert (Hs : In (float_of_str rt tok) (map Some bs))
      by (rewrite <- E; now apply in_map).
    rewrite Htok in Hs. apply in_map_iff in Hs as (? & ? & _). discriminate.
Qed.

(** [parse_viewbox] never raises: it gives the four floats of a string
    that splits at whitespace into exactly four tokens that all read as
    floats, and the four ints 0, 0, 24, 24 for every other string, with
    fewer or more tokens or with a token that is no float. *)
Theorem parse_viewbox_cases (s : string) :
  (exists x y w h,
     map (float_of_str rt) (py_split s) = [Some x; Some y; Some w; Some h]
     /\ parse_viewbox rt s = (PyFloat x, PyFloat y, PyFloat w, PyFloat h))
  \/ (malformed_viewbox rt s /\ parse_viewbox rt s = default_viewbox).
Proof.
  destruct (traverse (float_of_str rt) (py_split s)) as [bs |] eqn:E.
  - pose proof (traverse_Some _ _ _ E) as Hm.
    destruct bs as [| x [| y [| w [| h [| z bs]]]]];
      try (right; split;
           [ left; apply (f_equal (@List.length _)) in Hm;
             rewrite !length_map in Hm; rewrite Hm; simpl; lia
           | unfold parse_viewbox; now rewrite E ]).
    left. exists x, y, w, h. split; [exact Hm |].
    unfold parse_viewbox. now rewrite E.
  - right. assert (Hbad : malformed_viewbox rt s).
    { right. now apply traverse_None. }
    split; [exact Hbad | now apply parse_viewbox_malformed].
Qed.

End Viewbox.

(** ** The normalizer *)

Lemma assoc_get_set_present (k k' v : string) (l : list (string * string)) :
  assoc_get k' l <> None -> assoc_get k' (assoc_set k v l) <> None.
Proof.
  destruct (String.eqb_spec k' k) as [-> | Hne].
  - rewrite assoc_get_set_same. discriminate.
  - now rewrite assoc_get_set_other.
Qed.

Lemma num_eqb_zero_not_24 (n : number) :
  num_eqb n (PyInt 0) = true -> num_eqb n (PyInt 24) = false.
Proof.
  destruct n as [z | f].
  - unfold num_eqb, num_compare. destruct (z ?= 0) eqn:E; try discriminate.
    apply Z.compare_eq in E. now subst.
  - rewrite num_eqb_zero. unfold num_eqb, num_compare, compare_int_float.
    destruct (Prim2SF f); try discriminate. reflexivity.
Qed.

Lemma zero_size_not_default (vb : viewbox) :
  zero_size vb = true -> viewbox_eqb vb default_viewbox = false.
Proof.
  destruct vb as [[[vx vy] vw] vh]. unfold zero_size, viewbox_eqb, default_viewbox.
  intros H. apply orb_true_iff in H as [H | H];
    rewrite (num_eqb_zero_not_24 _ H); now rewrite ?andb_false_r.
Qed.

Section Normalizer.

Variable rt : runtime.

Lemma normalize_zero_size (e : element) (vb : viewbox) :
  zero_size vb = true ->
  normalize_element_to_24x24 rt e vb = Raise ZeroDivisionError.
Proof.
  intros H. unfold normalize_element_to_24x24.
  rewrite (zero_size_not_default vb H).
  destruct vb as [[[vx vy] vw] vh]. unfold zero_size in H.
  unfold scale_translate. cbn [py_arith a_div a_int]. unfold num_div.
  destruct (num_eqb vw (PyInt 0)); [reflexivity |].
  cbn [orb] in H. rewrite H. reflexivity.
Qed.

(** Under the viewBoxes [parse_viewbox] returns (the four floats of a
    viewBox attribute, or the fallback) the normalizer raises only
    [ZeroDivisionError], and exactly when the width or the height of the
    viewBox [== 0]; under every other such viewBox, with NaN or infinite
    numbers too, it returns an element. *)
Theorem normalize_raises_on_zero_size_only (e : element) (ex : exn) :
  (forall s,
     let vb := parse_viewbox rt s in
     normalize_element_to_24x24 rt e vb = Raise ex
     <-> ex = ZeroDivisionError /\ zero_size vb = true)
  /\ (forall x y w h : float,
        let vb := (PyFloat x, PyFloat y, PyFloat w, PyFloat h) in
        normalize_element_to_24x24 rt e vb = Raise ex
        <-> ex = ZeroDivisionError /\ zero_size vb = true).
Proof.
  assert (H : forall vb,
            zero_size vb = false ->
            normalize_element_to_24x24 rt e vb <> Raise ex).
  { intros vb Hz. unfold normalize_element_to_24x24.
    destruct (viewbox_eqb vb default_viewbox); [discriminate |].
    destruct vb as [[[vx vy] vw] vh]. unfold zero_size in Hz.
    apply orb_false_iff in Hz as [Hw Hh].
    unfold scale_translate. cbn [py_arith a_div a_int]. unfold num_div.
    rewrite Hw, Hh. cbn [bind]. discriminate. }
  assert (H' : forall vb,
            normalize_element_to_24x24 rt e vb = Raise ex
            <-> ex = ZeroDivisionError /\ zero_size vb = true).
  { intros vb. split.
    - destruct (zero_size vb) eqn:Hz.
      + rewrite normalize_zero_size by exact Hz. now intros [= <-].
      + intros Hr. now apply H in Hr.
    - intros [-> Hz]. now apply normalize_zero_size. }
  split.
  - intros s vb. apply H'.
  - intros x y w h vb. apply H'.
Qed.

Lemma normalize_tag_fill (e n : element) (vb : viewbox) :
  normalize_element_to_24x24 rt e vb = Ok n ->
  tag n = tag e /\ get n "fill" = Some "currentColor".
Proof.
  unfold normalize_element_to_24x24.
  destruct (viewbox_eqb vb default_viewbox).
  - intros [= <-]. split; [reflexivity | apply get_set_same].
  - destruct (scale_translate py_arith vb) as [p |]; cbn [bind]; [| discriminate].
    intros [= <-]. split; [| apply get_set_same].
    destruct (map (render rt) (build_transforms py_arith p)); [reflexivity |].
    destruct (get_default e "transform" "" =? "")%string; reflexivity.
Qed.

(** Whatever the viewBox, the element the normalizer returns has the tag,
    the text, the tail and the children of the element it was given, fill
    set to currentColor, and every attribute other than fill and transform
    as it was; no attribute is removed; and a transform attribute the
    element had is the beginning of the one it gets. *)
Theorem normalize_touches_fill_and_transform_only (e n : element) (vb : viewbox) :
  normalize_element_to_24x24 rt e vb = Ok n ->
  tag n = tag e /\ text n = text e /\ tail n = tail e /\ children n = children e
  /\ get n "fill" = Some "currentColor"
  /\ (forall k, k <> "fill" -> k <> "transform" -> get n k = get e k)
  /\ (forall k, get e k <> None -> get n k <> None)
  /\ (forall t, get e "transform" = Some t ->
        exists more, get n "transform" = Some (t ++ more)%string).
Proof.
  unfold normalize_element_to_24x24.
  destruct (viewbox_eqb vb default_viewbox).
  - intros [= <-]. repeat split; auto.
    + apply get_set_same.
    + intros k Hk _. now apply get_set_other.
    + intros k. apply assoc_get_set_present.
    + intros t Ht. exists "". rewrite get_set_other by discriminate.
      rewrite Ht. f_equal. clear. induction t; simpl; congruence.
  - destruct (scale_translate py_arith vb) as [p |]; cbn [bind]; [| discriminate].
    destruct (map (render rt) (build_transforms py_arith p)) as [| t0 ts].
    + intros [= <-]. repeat split; auto.
      * apply get_set_same.
      * intros k Hk _. now apply get_set_other.
      * intros k. apply assoc_get_set_present.
      * intros t Ht. exists "". rewrite get_set_other by discriminate.
        rewrite Ht. f_equal. clear. induction t; simpl; congruence.
    + set (new := join " " (t0 :: ts)).
      unfold get_default.
      destruct (get e "transform") as [t |] eqn:Et.
      * destruct (t =? "")%string eqn:Ee; intros [= <-]; repeat split; auto;
          try apply get_set_same;
          try (intros k Hk Hk'; rewrite get_set_other by exact Hk;
               now apply get_set_other);
          try (intros k Hk; now apply assoc_get_set_present, assoc_get_set_present).
        -- intros t' [= <-]. apply String.eqb_eq in Ee. subst t.
           exists new. rewrite get_set_other by discriminate. apply get_set_same.
        -- intros t' [= <-]. exists (" " ++ new)%string.
           rewrite get_set_other by discriminate. apply get_set_same.
      * cbn [String.eqb]. intros [= <-]; repeat split; auto;
          try apply get_set_same;
          try (intros k Hk Hk'; rewrite get_set_other by exact Hk;
               now apply get_set_other);
          try (intros k Hk; now apply assoc_get_set_present, assoc_get_set_present).
        intros t'. discriminate.
Qed.

End Normalizer.

(** ** Two shapes of viewBox *)

Lemma div_24_24 : (24 / 24)%float = 1%float.
Proof. vm_compute. reflexivity. Qed.

Lemma num_eqb_float_one : num_eqb (PyFloat 1) (PyInt 1) = true.
Proof. vm_compute. reflexivity. Qed.

Lemma num_eqb_24_24 : num_eqb (PyFloat 24) (PyInt 24) = true.
Proof. vm_compute. reflexivity. Qed.

Lemma num_eqb_24_0 : num_eqb (PyFloat 24) (PyInt 0) = false.
Proof. vm_compute. reflexivity. Qed.

(** A zero times a finite float is a zero. *)
Lemma mul_zero_finite (x s : float) :
  num_eqb (PyFloat x) (PyInt 0) = true ->
  is_finite s = true ->
  num_eqb (PyFloat (x * s)%float) (PyInt 0) = true.
Proof.
  rewrite !num_eqb_zero. unfold is_finite. rewrite mul_spec.
  destruct (Prim2SF x) as [sx | | |]; try discriminate.
  destruct (Prim2SF s) as [ss | | | ss m e]; try discriminate; reflexivity.
Qed.

Section Shapes.

Variable rt : runtime.

(** A viewBox x y 24 24 that is not the default one asks for a translation
    and nothing else, by exactly (-x, -y): the scale 24/24 is the float 1,
    and multiplying by it changes no float. *)
Theorem offset_viewbox_translates (x y : float) (e : element) :
  let vb := (PyFloat x, PyFloat y, PyFloat 24, PyFloat 24) in
  viewbox_eqb vb default_viewbox = false ->
  scale_translate py_arith vb
    = Ok (PyFloat 1, PyFloat 1, PyFloat (- x), PyFloat (- y))%float
  /\ build_transforms py_arith (PyFloat 1, PyFloat 1, PyFloat (- x), PyFloat (- y))%float
     = [Translate (PyFloat (- x)%float) (PyFloat (- y)%float)]
  /\ (get e "transform" = None ->
      exists n,
        normalize_element_to_24x24 rt e vb = Ok n
        /\ get n "transform"
           = Some ("translate(" ++ str_of_float rt (- x)%float ++ ","
                     ++ str_of_float rt (- y)%float ++ ")")%string).
Proof.
  intros vb Hvb.
  assert (Hp : scale_translate py_arith vb
               = Ok (PyFloat 1, PyFloat 1, PyFloat (- x), PyFloat (- y))%float).
  { unfold vb. rewrite scale_translate_floats by apply num_eqb_24_0.
    now rewrite div_24_24, !mul_one_r. }
  assert (Hb : build_transforms py_arith
                 (PyFloat 1, PyFloat 1, PyFloat (- x), PyFloat (- y))%float
               = [Translate (PyFloat (- x)%float) (PyFloat (- y)%float)]).
  { unfold build_transforms. cbn [py_arith a_eqb a_int].
    rewrite num_eqb_float_one. cbn [negb orb app].
    rewrite !num_eqb_zero_opp.
    unfold vb, viewbox_eqb, default_viewbox in Hvb.
    rewrite num_eqb_24_24, !andb_true_r in Hvb.
    apply andb_false_iff in Hvb as [-> | ->]; cbn [negb orb]; [reflexivity |].
    now rewrite orb_true_r. }
  split; [exact Hp |]. split; [exact Hb |].
  intros Hnone. unfold normalize_element_to_24x24.
  rewrite Hvb, Hp. cbn [bind]. rewrite Hb. cbn [map render str_of_number join String.concat].
  unfold get_default. rewrite Hnone. cbn [String.eqb].
  eexists. split; [reflexivity |].
  rewrite get_set_other by discriminate. apply get_set_same.
Qed.

(** A viewBox at the origin (x == 0 and y == 0, of either sign of zero) with
    finite scales asks for no translation: the transform is the scale alone,
    or nothing when both scales are 1. *)
Theorem origin_viewbox_scales (x y w h : float) :
  let sx := (24 / w)%float in
  let sy := (24 / h)%float in
  num_eqb (PyFloat x) (PyInt 0) = true ->
  num_eqb (PyFloat y) (PyInt 0) = true ->
  num_eqb (PyFloat w) (PyInt 0) = false ->
  num_eqb (PyFloat h) (PyInt 0) = false ->
  is_finite sx = true ->
  is_finite sy = true ->
  exists p,
    scale_translate py_arith (PyFloat x, PyFloat y, PyFloat w, PyFloat h) = Ok p
    /\ build_transforms py_arith p
       = if num_eqb (PyFloat sx) (PyInt 1) && num_eqb (PyFloat sy) (PyInt 1)
         then [] else [Scale (PyFloat sx) (PyFloat sy)].
Proof.
  intros sx sy Hx Hy Hw Hh Fx Fy.
  rewrite scale_translate_floats by assumption. fold sx sy.
  eexists. split; [reflexivity |].
  unfold build_transforms. cbn [py_arith a_eqb a_int].
  rewrite <- num_eqb_zero_opp in Hx, Hy.
  rewrite (mul_zero_finite _ _ Hx Fx), (mul_zero_finite _ _ Hy Fy).
  cbn [negb orb app].
  destruct (num_eqb (PyFloat sx) (PyInt 1)), (num_eqb (PyFloat sy) (PyInt 1)); reflexivity.
Qed.

End Shapes.

(** ** The classifier on the other shapes *)

Section OtherShapes.

Variable rt : runtime.

(** An element that is neither a path nor a rect (a circle, an ellipse, a
    line, a polyline, a polygon) is background exactly when it has
    fill="none": classifying it never raises and never reads the viewBox. *)
Theorem other_shapes_are_background_by_fill_only (e : element) (vb : viewbox) :
  local_name (tag e) <> "path" ->
  local_name (tag e) <> "rect" ->
  is_background_element rt e vb = Ok (rule_a e)
  /\ (is_background_element rt e vb = Ok true <-> get e "fill" = Some "none").
Proof.
  intros Hp Hr.
  assert (H : is_background_element rt e vb = Ok (rule_a e)).
  { unfold is_background_element, rule_a.
    apply String.eqb_neq in Hp, Hr. rewrite Hp, Hr.
    destruct (option_eqb (get e "fill") "none"); reflexivity. }
  split; [exact H |]. rewrite H. unfold rule_a.
  destruct (get e "fill") as [v |]; simpl.
  - split.
    + intros [= Hv]. apply String.eqb_eq in Hv. now subst.
    + intros [= ->]. reflexivity.
  - split; discriminate.
Qed.

(** The four hard-coded 24x24 background paths are background under every
    viewBox whose width and height have an integer value, whatever its size:
    a path that draws the square from (0,0) to (24,24) is dropped from a
    48x48 icon as well. *)
Theorem hard_coded_patterns_match_under_every_viewbox (e : element)
    (vx vy vw vh : number) (iw ih : Z) :
  local_name (tag e) = "path" ->
  In (strip (get_default e "d" "")) hard_coded_patterns ->
  py_int vw = Ok iw ->
  py_int vh = Ok ih ->
  is_background_element rt e (vx, vy, vw, vh) = Ok true.
Proof.
  intros Htag Hin Hw Hh.
  rewrite is_background_element_cases.
  unfold classification_error, matches_a_rule.
  destruct (rule_a e); [reflexivity |].
  rewrite Htag. cbn [String.eqb Ascii.eqb Bool.eqb]. rewrite Hw, Hh.
  assert (Hb : rule_b rt e (vx, vy, vw, vh) = true).
  { unfold rule_b, pattern_list. rewrite Htag. cbn [String.eqb Ascii.eqb Bool.eqb andb].
    rewrite !existsb_app.
    assert (Hhc : existsb (String.eqb (strip (get_default e "d" ""))) hard_coded_patterns = true).
    { apply existsb_exists. exists (strip (get_default e "d" "")).
      split; [exact Hin | apply String.eqb_refl]. }
    rewrite Hhc. now rewrite !orb_true_r. }
  now rewrite Hb.
Qed.

End OtherShapes.

(** ** Strings: trimming, splitting and joining *)

Lemma append_nil_r (s : string) : (s ++ "")%string = s.
Proof. induction s; simpl; congruence. Qed.

Lemma append_assoc (a b c : string) : ((a ++ b) ++ c)%string = (a ++ b ++ c)%string.
Proof. induction a; simpl; congruence. Qed.

Lemma lstrip_no_leading_space (s : string) : no_leading_space (lstrip s) = true.
Proof.
  induction s as [| c s IH]; simpl; auto.
  destruct (is_space c) eqn:E; auto. simpl. now rewrite E.
Qed.

Lemma lstrip_fixed (s : string) : no_leading_space s = true -> lstrip s = s.
Proof.
  destruct s as [| c s]; simpl; auto.
  destruct (is_space c); [discriminate | reflexivity].
Qed.

Lemma rstrip_no_leading_space (s : string) :
  no_leading_space s = true -> no_leading_space (rstrip s) = true.
Proof.
  destruct s as [| c s]; simpl; auto.
  intros H. destruct (rstrip s); simpl; [| exact H].
  destruct (is_space c) eqn:E; simpl; auto. now rewrite E.
Qed.

Lemma rstrip_idempotent (s : string) : rstrip (rstrip s) = rstrip s.
Proof.
  induction s as [| c s IH]; simpl; auto.
  destruct (rstrip s) as [| d r] eqn:E.
  - destruct (is_space c) eqn:Ec; simpl; auto. now rewrite Ec.
  - cbn [rstrip]. cbn [rstrip] in IH. rewrite IH. reflexivity.
Qed.

Lemma strip_no_leading_space (s : string) : no_leading_space (strip s) = true.
Proof. apply rstrip_no_leading_space, lstrip_no_leading_space. Qed.

Lemma strip_idempotent (s : string) : strip (strip s) = strip s.
Proof.
  unfold strip at 1. rewrite lstrip_fixed by apply strip_no_leading_space.
  apply rstrip_idempotent.
Qed.

Lemma rstrip_space (s : string) :
  rstrip s <> "" -> rstrip (String " " s) = String " " (rstrip s).
Proof. simpl. destruct (rstrip s); congruence. Qed.

Lemma has_newline_app (a b : string) :
  has_newline (a ++ b) = has_newline a || has_newline b.
Proof. induction a as [| c a IH]; simpl; auto. now rewrite IH, orb_assoc. Qed.

Lemma has_newline_lstrip (s : string) : has_newline s = false -> has_newline (lstrip s) = false.
Proof.
  induction s as [| c s IH]; simpl; auto.
  intros H. apply orb_false_iff in H as [Hc Hs].
  destruct (is_space c); auto. simpl. now rewrite Hc, Hs.
Qed.

Lemma has_newline_rstrip (s : string) : has_newline s = false -> has_newline (rstrip s) = false.
Proof.
  induction s as [| c s IH]; simpl; auto.
  intros H. apply orb_false_iff in H as [Hc Hs]. specialize (IH Hs).
  destruct (rstrip s); simpl.
  - destruct (is_space c); simpl; auto. now rewrite Hc.
  - simpl in IH. now rewrite Hc, IH.
Qed.

Lemma has_newline_strip (s : string) : has_newline s = false -> has_newline (strip s) = false.
Proof. intros H. now apply has_newline_rstrip, has_newline_lstrip. Qed.

Lemma snoc_app (cur : string) (c : ascii) (s : string) :
  (snoc cur c ++ s)%string = (cur ++ String c s)%string.
Proof. unfold snoc. now rewrite append_assoc. Qed.

(** Splitting what follows an unfinished line. *)
Lemma split_at_cur (sep : ascii) (s cur : string) :
  split_at sep s cur =
    (cur ++ hd "" (split_at sep s ""))%string :: tl (split_at sep s "").
Proof.
  revert cur. induction s as [| c s IH]; intros cur; simpl.
  - now rewrite append_nil_r.
  - destruct (Ascii.eqb c sep).
    + simpl. now rewrite append_nil_r.
    + rewrite (IH (snoc cur c)), (IH (snoc "" c)). cbn [hd tl].
      now rewrite !snoc_app.
Qed.

Lemma split_at_app (sep : ascii) (a b cur : string) :
  split_at sep (a ++ String sep b) cur = split_at sep a cur ++ split_at sep b "".
Proof.
  revert cur. induction a as [| c a IH]; intros cur; simpl.
  - now rewrite Ascii.eqb_refl.
  - destruct (Ascii.eqb c sep); [now rewrite IH | apply IH].
Qed.

Lemma split_lines_no_newline (s : string) :
  has_newline s = false -> split_lines s = [s].
Proof.
  unfold split_lines. rewrite split_at_cur. cbn [append].
  induction s as [| c s IH]; simpl; auto.
  intros H. apply orb_false_iff in H as [Hc Hs]. rewrite Hc.
  rewrite split_at_cur. specialize (IH Hs). inversion IH as [[Hh Ht]].
  rewrite Ht, Hh. unfold snoc. simpl. now rewrite Hh.
Qed.

Lemma split_at_has_no_newline (s cur : string) :
  has_newline cur = false ->
  Forall (fun l => has_newline l = false) (split_at newline s cur).
Proof.
  revert cur. induction s as [| c s IH]; intros cur Hcur; simpl.
  - constructor; auto.
  - destruct (Ascii.eqb c newline) eqn:Ec.
    + constructor; auto.
    + apply IH. unfold snoc. rewrite has_newline_app, Hcur. simpl. now rewrite Ec.
Qed.

Lemma join_cons (sep x : string) (y : string) (l : list string) :
  join sep (x :: y :: l) = (x ++ sep ++ join sep (y :: l))%string.
Proof. reflexivity. Qed.

(** Splitting a joined text: the lines of its pieces, in order. *)
Lemma split_lines_join (ls : list string) :
  ls <> [] -> split_lines (join nl ls) = flat_map split_lines ls.
Proof.
  induction ls as [| x ls IH]; [congruence |]. intros _.
  destruct ls as [| y ls].
  - simpl. now rewrite app_nil_r.
  - rewrite join_cons. unfold nl at 1. cbn [append].
    unfold split_lines at 1. rewrite split_at_app.
    fold (split_lines x). fold (split_lines (join nl (y :: ls))).
    rewrite IH by discriminate. reflexivity.
Qed.

Lemma flat_map_fixed {A : Type} (f : A -> list A) (l : list A) :
  Forall (fun a => f a = [a]) l -> flat_map f l = l.
Proof. induction 1 as [| a l Ha _ IH]; simpl; [| rewrite Ha, IH]; auto. Qed.

(** ** optimize_sprite_content *)

Lemma optimize_line_indent (line : string) :
  optimize_line line =
    if (strip line =? "")%string then []
    else [(indent_of (strip line) ++ strip line)%string].
Proof.
  unfold optimize_line, indent_of.
  destruct (strip line =? "")%string; [reflexivity |].
  destruct (startswith (strip line) "<symbol"); [reflexivity |].
  destruct (startswith (strip line) "<path"); [reflexivity |].
  destruct (startswith (strip line) "</symbol>"); reflexivity.
Qed.

Lemma indent_cases (core : string) :
  indent_of core = "" \/ indent_of core = "  " \/ indent_of core = "    ".
Proof.
  unfold indent_of.
  destruct (startswith core "<symbol"); auto.
  destruct (startswith core "<path"); auto.
  destruct (startswith core "</symbol>"); auto.
Qed.

Lemma lstrip_indent (core : string) : lstrip (indent_of core ++ core) = lstrip core.
Proof. destruct (indent_cases core) as [-> | [-> | ->]]; reflexivity. Qed.

Lemma rstrip_indent (core : string) :
  core <> "" -> rstrip core = core ->
  rstrip (indent_of core ++ core) = (indent_of core ++ core)%string.
Proof.
  intros Hne Hr.
  assert (H1 : rstrip (String " " core) = String " " core).
  { rewrite rstrip_space; rewrite Hr; auto. }
  assert (H2 : rstrip (String " " (String " " core)) = String " " (String " " core)).
  { rewrite rstrip_space; rewrite H1; [reflexivity | discriminate]. }
  assert (H3 : rstrip (String " " (String " " (String " " core)))
               = String " " (String " " (String " " core))).
  { rewrite rstrip_space; rewrite H2; [reflexivity | discriminate]. }
  destruct (indent_cases core) as [-> | [-> | ->]]; cbn [append]; auto.
  rewrite rstrip_space; rewrite H3; [reflexivity | discriminate].
Qed.

(** A formatted line is left as it is by the formatting of a line. *)
Lemma optimize_line_fixed (src : string) :
  strip src <> "" ->
  let l := (indent_of (strip src) ++ strip src)%string in
  strip l = strip src /\ rstrip l = l /\ optimize_line l = [l].
Proof.
  intros Hne l.
  assert (Hs : strip l = strip src).
  { unfold l, strip at 1. rewrite lstrip_indent.
    fold (strip (strip src)). apply strip_idempotent. }
  split; [exact Hs |]. split.
  - apply rstrip_indent; auto. apply rstrip_idempotent.
  - rewrite optimize_line_indent, Hs.
    apply String.eqb_neq in Hne. now rewrite Hne.
Qed.

Lemma formatted_lines_sources (content l : string) :
  In l (formatted_lines content) ->
  exists src,
    In src (split_lines content) /\ strip src <> ""
    /\ l = (indent_of (strip src) ++ strip src)%string.
Proof.
  unfold formatted_lines. intros H. apply in_flat_map in H as (src & Hin & Hl).
  rewrite optimize_line_indent in Hl.
  destruct (strip src =? "")%string eqn:E; [contradiction |].
  destruct Hl as [<- | []]. exists src. apply String.eqb_neq in E. auto.
Qed.

Lemma formatted_lines_no_newline (content : string) :
  Forall (fun l => has_newline l = false) (formatted_lines content).
Proof.
  apply Forall_forall. intros l Hl.
  apply formatted_lines_sources in Hl as (src & Hin & _ & ->).
  pose proof (split_at_has_no_newline content "" eq_refl) as H.
  rewrite Forall_forall in H. specialize (H src Hin).
  rewrite has_newline_app, (has_newline_strip src H), orb_false_r.
  destruct (indent_cases (strip src)) as [-> | [-> | ->]]; reflexivity.
Qed.

Lemma formatted_lines_fixed (content : string) :
  Forall (fun l => optimize_line l = [l]) (formatted_lines content).
Proof.
  apply Forall_forall. intros l Hl.
  apply formatted_lines_sources in Hl as (src & _ & Hne & ->).
  now apply optimize_line_fixed.
Qed.

Lemma split_lines_optimized (content : string) :
  formatted_lines content <> [] ->
  split_lines (optimize_sprite_content content) = formatted_lines content.
Proof.
  intros Hne. unfold optimize_sprite_content. fold (formatted_lines content).
  rewrite split_lines_join by exact Hne.
  apply flat_map_fixed.
  eapply Forall_impl; [| apply formatted_lines_no_newline].
  intros l. apply split_lines_no_newline.
Qed.

(** The lines of the formatted text are the non-blank lines of the text, in
    order, each one trimmed and indented by its first characters (two spaces
    before <symbol and </symbol>, four before <path, none otherwise): no line
    of the result is blank, none ends in whitespace, and none but those
    three kinds begins with it. *)
Theorem optimized_lines_are_trimmed_and_indented (content : string) :
  (formatted_lines content = [] /\ optimize_sprite_content content = "")
  \/ (split_lines (optimize_sprite_content content)
        = map (fun core => indent_of core ++ core)%string
            (filter (fun core => negb (core =? "")%string)
                    (map strip (split_lines content)))
      /\ Forall (fun l => strip l <> "" /\ rstrip l = l
                          /\ l = (indent_of (strip l) ++ strip l)%string)
           (split_lines (optimize_sprite_content content))).
Proof.
  destruct (formatted_lines content) as [| l0 ls] eqn:E.
  - left. split; [reflexivity |]. unfold optimize_sprite_content.
    fold (formatted_lines content). now rewrite E.
  - right. rewrite split_lines_optimized by (rewrite E; discriminate).
    split.
    + unfold formatted_lines. clear E.
      induction (split_lines content) as [| src srcs IH]; [reflexivity |].
      cbn [flat_map map filter]. rewrite optimize_line_indent, IH.
      destruct (strip src =? "")%string; reflexivity.
    + apply Forall_forall. intros l Hl.
      apply formatted_lines_sources in Hl as (src & _ & Hne & ->).
      destruct (optimize_line_fixed src Hne) as (Hs & Hr & _).
      rewrite Hs. auto.
Qed.

(** Formatting a formatted text changes nothing. *)
Theorem optimize_sprite_content_idempotent (content : string) :
  optimize_sprite_content (optimize_sprite_content content)
    = optimize_sprite_content content.
Proof.
  destruct (formatted_lines content) as [| l0 ls] eqn:E.
  - unfold optimize_sprite_content at 2 3. fold (formatted_lines content).
    rewrite E. reflexivity.
  - unfold optimize_sprite_content at 1.
    rewrite split_lines_optimized by (rewrite E; discriminate).
    rewrite flat_map_fixed by apply formatted_lines_fixed.
    reflexivity.
Qed.

Lemma formatted_lines_join (pieces : list string) :
  pieces <> [] ->
  formatted_lines (join nl pieces) = flat_map formatted_lines pieces.
Proof.
  intros Hne. unfold formatted_lines at 1. rewrite split_lines_join by exact Hne.
  clear Hne. induction pieces as [| x l IH]; [reflexivity |].
  cbn [flat_map]. rewrite flat_map_app, IH. reflexivity.
Qed.

(** The formatting pass works on lines: formatting pieces joined by
    newlines gives the formatted lines of the pieces, joined by newlines. *)
Theorem optimize_sprite_content_join (pieces : list string) :
  optimize_sprite_content (join nl pieces)
    = join nl (flat_map formatted_lines pieces).
Proof.
  unfold optimize_sprite_content. fold (formatted_lines (join nl pieces)).
  destruct pieces as [| p ps]; [reflexivity |].
  now rewrite formatted_lines_join.
Qed.

(** ** Sorting the files by name *)

Lemma leb_refl (s : string) : String.leb s s = true.
Proof. destruct (String.leb_total s s); assumption. Qed.

Lemma leb_lt_or_eq (s1 s2 : string) :
  String.leb s1 s2 = true <-> s1 = s2 \/ String_as_OT.lt s1 s2.
Proof.
  unfold String.leb. split.
  - destruct (String.compare s1 s2) eqn:E; try discriminate; intros _.
    + left. now apply String.compare_eq_iff.
    + right. now apply String_as_OT.cmp_lt.
  - intros [-> | H].
    + fold (String.leb s2 s2). apply leb_refl.
    + apply String_as_OT.cmp_lt in H. unfold String_as_OT.cmp in H. now rewrite H.
Qed.

Lemma leb_trans (s1 s2 s3 : string) :
  String.leb s1 s2 = true -> String.leb s2 s3 = true -> String.leb s1 s3 = true.
Proof.
  rewrite !leb_lt_or_eq. intros [-> | H12] [-> | H23]; auto.
  right. eapply String_as_OT.lt_trans; eauto.
Qed.

Lemma name_le_trans (f g h : svg_file) : name_le f g -> name_le g h -> name_le f h.
Proof. apply leb_trans. Qed.

Lemma insert_sorted_perm (f : svg_file) (l : list svg_file) :
  Permutation (f :: l) (insert_sorted f l).
Proof.
  induction l as [| g l IH]; simpl; auto.
  destruct (String.leb (fst f) (fst g)); auto.
  eapply perm_trans; [apply perm_swap |]. now constructor.
Qed.

Lemma sorted_perm (l : list svg_file) : Permutation l (sorted l).
Proof.
  induction l as [| f l IH]; simpl; auto.
  eapply perm_trans; [| apply insert_sorted_perm]. now constructor.
Qed.

Lemma insert_sorted_StronglySorted (f : svg_file) (l : list svg_file) :
  StronglySorted name_le l -> StronglySorted name_le (insert_sorted f l).
Proof.
  induction 1 as [| g l Hl IH Hg]; simpl.
  - repeat constructor.
  - destruct (String.leb (fst f) (fst g)) eqn:E.
    + constructor; [now constructor |].
      constructor; [exact E |].
      eapply Forall_impl; [| exact Hg]. intros h Hh.
      eapply name_le_trans; [exact E | exact Hh].
    + constructor; auto.
      assert (Hgf : name_le g f).
      { destruct (String.leb_total (fst f) (fst g)) as [H | H]; [congruence | exact H]. }
      eapply Permutation_Forall; [apply insert_sorted_perm |].
      now constructor.
Qed.

Lemma sorted_StronglySorted (l : list svg_file) : StronglySorted name_le (sorted l).
Proof.
  induction l; simpl; [constructor | now apply insert_sorted_StronglySorted].
Qed.

Lemma NoDup_fst_eq (l : list svg_file) (f g : svg_file) :
  NoDup (map fst l) -> In f l -> In g l -> fst f = fst g -> f = g.
Proof.
  induction l as [| h l IH]; simpl; [contradiction |].
  intros Hnd [-> | Hf] [-> | Hg] Hfg; auto; inversion Hnd as [| ? ? Hn Hnd']; subst.
  - exfalso. apply Hn. rewrite Hfg. now apply in_map.
  - exfalso. apply Hn. rewrite <- Hfg. now apply in_map.
  - now apply IH.
Qed.

(** Two name-sorted listings of the same files, no two of one name, are
    the same list. *)
Lemma sorted_unique (l1 : list svg_file) :
  forall l2,
    StronglySorted name_le l1 -> StronglySorted name_le l2 ->
    Permutation l1 l2 -> NoDup (map fst l1) -> l1 = l2.
Proof.
  induction l1 as [| a l1 IH]; intros l2 H1 H2 Hp Hnd.
  - apply Permutation_nil in Hp. now subst.
  - destruct l2 as [| b l2].
    { apply Permutation_sym, Permutation_nil in Hp. discriminate. }
    inversion H1 as [| ? ? H1' Ha]; subst. inversion H2 as [| ? ? H2' Hb]; subst.
    assert (Hab : a = b).
    { assert (Hain : In a (b :: l2)) by (eapply Permutation_in; [exact Hp | now left]).
      assert (Hbin : In b (a :: l1))
        by (eapply Permutation_in; [apply Permutation_sym; exact Hp | now left]).
      destruct Hain as [-> | Hain]; auto.
      destruct Hbin as [-> | Hbin]; auto.
      apply (NoDup_fst_eq (a :: l1)); auto; [now left | now right |].
      apply String.leb_antisym.
      - rewrite Forall_forall in Ha. now apply Ha.
      - rewrite Forall_forall in Hb. now apply Hb. }
    subst b. f_equal. apply IH; auto.
    + eapply Permutation_cons_inv; eauto.
    + now inversion Hnd.
Qed.

Lemma sorted_of_permutation (l1 l2 : list svg_file) :
  NoDup (map fst l1) -> Permutation l1 l2 -> sorted l1 = sorted l2.
Proof.
  intros Hnd Hp. apply sorted_unique; auto using sorted_StronglySorted.
  - eapply perm_trans; [apply Permutation_sym, sorted_perm |].
    eapply perm_trans; [exact Hp | apply sorted_perm].
  - eapply Permutation_NoDup; [| exact Hnd].
    apply Permutation_map, sorted_perm.
Qed.

Lemma Permutation_filter {A : Type} (p : A -> bool) (l1 l2 : list A) :
  Permutation l1 l2 -> Permutation (filter p l1) (filter p l2).
Proof.
  induction 1 as [| x l1 l2 H IH | x y l | l1 l2 l3 H12 IH12 H23 IH23]; simpl.
  - constructor.
  - destruct (p x); auto.
  - destruct (p x), (p y); auto. apply perm_swap.
  - eapply perm_trans; eauto.
Qed.


(** ** File names and symbol ids *)






Section Names.

Variable rt : runtime.


End Names.
(** ** The assembler *)

Section Assembler.

Variable rt : runtime.

(** The loop over the elements of a file appends the serializations up to
    the first that raises. *)
Lemma append_elements_prefix (els : list element) :
  forall content,
    snd (append_elements rt els content)
      = content ++ map element_line (serialized_prefix rt els)
    /\ (if all_serialize rt els
        then fst (append_elements rt els content) = Ok tt
        else exists ex, fst (append_elements rt els content) = Raise ex).
Proof.
  induction els as [| e els IH]; intros content; cbn [append_elements serialized_prefix
    all_serialize forallb map].
  - rewrite app_nil_r. split; reflexivity.
  - destruct (ET_tostring rt e) as [str | ex]; cbn [andb fst snd map].
    + destruct (IH (content ++ [element_line str])) as [-> H].
      rewrite <- app_assoc. split; [reflexivity | exact H].
    + rewrite app_nil_r. split; [reflexivity | eauto].
Qed.

Lemma process_file_sprite (st : state) (f : svg_file) :
  sprite_content (process_file rt st f) = sprite_content st ++ file_lines rt f
  /\ processed_count (process_file rt st f) =
       (processed_count st + (if completes rt f then 1 else 0))%nat.
Proof.
  unfold process_file, file_lines, completes, serializes, yields_elements, retained.
  destruct f as [name [content |]]; cbn [fst snd].
  - destruct (extract_icon_elements rt content) as [[| e els] msgs];
      cbn [fst sprite_content processed_count].
    + rewrite app_nil_r. split; [reflexivity | cbn; lia].
    + destruct (append_elements_prefix (e :: els) (sprite_content st ++ [symbol_open (stem name)]))
        as [Hs Hf].
      destruct (append_elements rt (e :: els) (sprite_content st ++ [symbol_open (stem name)]))
        as [r appended].
      cbn [fst snd] in Hs, Hf. subst appended.
      destruct (all_serialize rt (e :: els)).
      * rewrite Hf. cbn [sprite_content processed_count andb].
        rewrite <- !app_assoc. split; [reflexivity | lia].
      * destruct Hf as [ex ->]. cbn [sprite_content processed_count andb].
        rewrite <- !app_assoc, app_nil_r. split; [reflexivity | lia].
  - cbn [sprite_content processed_count]. rewrite app_nil_r. split; [reflexivity | cbn; lia].
Qed.

Lemma fold_process_file_sprite (l : list svg_file) :
  forall st,
    sprite_content (fold_left (process_file rt) l st)
      = sprite_content st ++ flat_map (file_lines rt) l
    /\ processed_count (fold_left (process_file rt) l st)
      = (processed_count st + List.length (filter (completes rt) l))%nat.
Proof.
  induction l as [| f l IH]; intros st; cbn [fold_left flat_map filter].
  - rewrite app_nil_r. split; [reflexivity | simpl; lia].
  - destruct (IH (process_file rt st f)) as [-> ->].
    destruct (process_file_sprite st f) as [-> ->].
    rewrite <- app_assoc. split; [reflexivity |].
    destruct (completes rt f); simpl; lia.
Qed.

Lemma extract_raise (content : string) (ex : exn) (collected : list element) :
  extract_try rt content = (Raise ex, collected) ->
  fst (extract_icon_elements rt content) = []
  /\ exists d, snd (extract_icon_elements rt content) = [d] /\ is_diagnostic d = true.
Proof.
  intros H. unfold extract_icon_elements. rewrite H.
  destruct ex; split; try reflexivity; eexists; split; reflexivity.
Qed.

Lemma file_raises_retained (f : svg_file) : file_raises rt f -> retained rt f = [].
Proof.
  unfold retained. intros [H | (content & ex & collected & H & Hx)]; rewrite H; auto.
  now apply extract_raise in Hx.
Qed.


Lemma file_lines_nothing (f : svg_file) :
  retained rt f = [] -> file_lines rt f = [] /\ completes rt f = false.
Proof.
  intros H. unfold file_lines, completes, yields_elements. now rewrite H.
Qed.

(** One turn of the loop on a file that raises. *)
Lemma raising_file_step (f : svg_file) (st : state) :
  file_raises rt f ->
  sprite_content (process_file rt st f) = sprite_content st
  /\ processed_count (process_file rt st f) = processed_count st
  /\ (exists d more,
        printed (process_file rt st f) = printed st ++ d :: more
        /\ is_diagnostic d = true).
Proof.
  intros Hf.
  pose proof (file_raises_retained f Hf) as Hret.
  destruct (process_file_sprite st f) as [Hs Hc].
  destruct (file_lines_nothing f Hret) as [Hl Hcomp].
  rewrite Hl, app_nil_r in Hs. rewrite Hcomp, Nat.add_0_r in Hc.
  split; [exact Hs |]. split; [exact Hc |].
  unfold process_file.
  destruct Hf as [H | (content & ex & collected & H & Hx)]; rewrite H.
  - cbn [printed]. eexists _, []. split; reflexivity.
  - destruct (extract_raise content ex collected Hx) as (Hnil & d & Hd & Hdiag).
    destruct (extract_icon_elements rt content) as [els msgs].
    cbn [fst snd] in Hnil, Hd. subst els msgs. cbn [printed app].
    eexists d, _. split; [reflexivity | exact Hdiag].
Qed.

(** The loop over a listing with a raising file in it. *)
Lemma raising_file_skipped (pre post : list svg_file) (f : svg_file) (st : state) :
  file_raises rt f ->
  sprite_content (fold_left (process_file rt) (pre ++ f :: post) st)
    = sprite_content (fold_left (process_file rt) (pre ++ post) st)
  /\ processed_count (fold_left (process_file rt) (pre ++ f :: post) st)
    = processed_count (fold_left (process_file rt) (pre ++ post) st).
Proof.
  intros Hf.
  pose proof (file_raises_retained f Hf) as Hret.
  destruct (file_lines_nothing f Hret) as [Hl Hcomp].
  split.
  - rewrite !(proj1 (fold_process_file_sprite _ _)), !flat_map_app.
    cbn [flat_map]. now rewrite Hl.
  - rewrite !(proj2 (fold_process_file_sprite _ _)), !filter_app.
    cbn [filter]. now rewrite Hcomp.
Qed.



(** C7.  When the icons directory does not exist, and when it holds no
    svg file, the run prints the one error, processes no file, creates and
    writes nothing, and returns. *)
Theorem setup_errors_abort (w : world) :
  (icons_dir w = None ->
   generate_sprite rt w
     = {| output := [IconsDirNotFound]; written := None; crashed := false |})
  /\ (icons_dir w = Some [] ->
      generate_sprite rt w
        = {| output := [NoSvgFilesFound]; written := None; crashed := false |})
  /\ (icons_dir w = None \/ icons_dir w = Some [] ->
      written (generate_sprite rt w) = None
      /\ Forall (fun ev => is_file_event ev = false) (output (generate_sprite rt w))).
Proof.
  unfold generate_sprite. split; [| split].
  - now intros ->.
  - now intros ->.
  - intros [-> | ->]; split; try reflexivity; repeat constructor.
Qed.

(** C8.  The run is a function of the set of files: two listings of the
    same files (the same names with the same contents, no two files of one
    name), in whatever order the directory hands them out, give the same
    output, written file included. *)
Theorem generate_sprite_deterministic (l1 l2 : list svg_file) (dir_ok writable : bool) :
  NoDup (map fst l1) ->
  Permutation l1 l2 ->
  generate_sprite rt
    {| icons_dir := Some l1; output_dir_ok := dir_ok; output_writable := writable |}
  = generate_sprite rt
    {| icons_dir := Some l2; output_dir_ok := dir_ok; output_writable := writable |}.
Proof.
  intros Hnd Hp. unfold generate_sprite. cbn [icons_dir output_dir_ok output_writable].
  pose proof (sorted_of_permutation l1 l2 Hnd Hp) as Hs.
  pose proof (Permutation_length Hp) as Hl.
  destruct l1 as [| a l1], l2 as [| b l2]; try discriminate; [reflexivity |].
  now rewrite Hs, Hl.
Qed.

(** C10, as amended.  When the collector reaches a rect (a rect with no
    drawable element above it) that has no fill="none" and one of whose
    present x, y, width, height does not read as a float, classifying it
    raises ValueError; the exception leaves the collection, the file yields
    no element, a diagnostic is printed, the file adds nothing to the sprite,
    and the loop goes on with the remaining files. *)
Theorem unparsable_rect_drops_file (content : string) (root r : element) :
  ET_fromstring rt content = Some root ->
  In r (reached root) ->
  local_name (tag r) = "rect" ->
  get r "fill" <> Some "none" ->
  unparsable_geometry rt r ->
  (forall vb, is_background_element rt r vb = Raise ValueError)
  /\ (exists ex collected, extract_try rt content = (Raise ex, collected))
  /\ fst (extract_icon_elements rt content) = []
  /\ (exists d, snd (extract_icon_elements rt content) = [d] /\ is_diagnostic d = true)
  /\ (forall name st rest,
        let st' := process_file rt st (name, Some content) in
        sprite_content st' = sprite_content st
        /\ processed_count st' = processed_count st
        /\ sprite_content (fold_left (process_file rt) ((name, Some content) :: rest) st)
            = sprite_content (fold_left (process_file rt) rest st)
        /\ processed_count (fold_left (process_file rt) ((name, Some content) :: rest) st)
            = processed_count (fold_left (process_file rt) rest st)).
Proof.
  intros Hparse Hin Htag Hfill Hbad.
  assert (Hr : forall vb, is_background_element rt r vb = Raise ValueError)
    by (intros vb; now apply unparsable_rect_raises).
  assert (Hx : exists ex collected, extract_try rt content = (Raise ex, collected)).
  { unfold extract_try. rewrite Hparse.
    set (vb := parse_viewbox rt _).
    destruct (collect_elements_on_stack rt vb 1 root []) as [[[] | ex] out] eqn:E;
      [| eauto].
    exfalso. apply on_stack_ok in E. rewrite collect_elements_reached in E.
    destruct (classify_all_raises rt vb r ValueError (reached root) Hin (Hr vb) [])
      as (ex' & c & Hc).
    congruence. }
  split; [exact Hr |]. split; [exact Hx |].
  destruct Hx as (ex & collected & Hx).
  destruct (extract_raise content ex collected Hx) as [Hnil Hd].
  split; [exact Hnil |]. split; [exact Hd |].
  intros name st rest st'.
  assert (Hf : file_raises rt (name, Some content)).
  { right. exists content, ex, collected. split; [reflexivity | exact Hx]. }
  destruct (raising_file_step (name, Some content) st Hf) as (H1 & H2 & _).
  destruct (raising_file_skipped [] rest (name, Some content) st Hf) as [H3 H4].
  cbn [app] in H3, H4. repeat split; assumption.
Qed.

(** A file all of whose reached elements are background yields nothing and
    is reported as skipped, with no diagnostic, when the stack has room for
    the walk over its document. *)
Lemma background_only_file_is_skipped (content name : string) (root : element)
    (st : state) :
  ET_fromstring rt content = Some root ->
  has_room rt 1 root = true ->
  (forall e, In e (reached root) ->
     is_background_element rt e
       (parse_viewbox rt (get_default root "viewBox" "0 0 24 24")) = Ok true) ->
  extract_icon_elements rt content = ([], [])
  /\ process_file rt st (name, Some content)
     = {| sprite_content := sprite_content st;
          processed_count := processed_count st;
          printed := printed st ++ [Skipped (stem name)] |}.
Proof.
  intros Hparse Hroom Hbg.
  assert (Hx : extract_icon_elements rt content = ([], [])).
  { unfold extract_icon_elements, extract_try.
    rewrite Hparse, has_room_collect by exact Hroom.
    rewrite collect_elements_reached.
    set (vb := parse_viewbox rt _) in *.
    assert (Hall : forall acc, classify_all rt vb (reached root) acc = (Ok tt, acc)).
    { induction (reached root) as [| e es IH]; intros acc; [reflexivity |].
      cbn [classify_all]. rewrite (Hbg e (or_introl eq_refl)).
      apply IH. intros e' He'. apply Hbg. now right. }
    now rewrite Hall. }
  split; [exact Hx |].
  unfold process_file. cbn [fst snd]. now rewrite Hx.
Qed.

End Assembler.

(** ** The sprite after the formatting pass *)

Lemma rstrip_app_fixed (a b : string) :
  b <> "" -> rstrip b = b -> rstrip (a ++ b) = (a ++ b)%string.
Proof.
  intros Hne Hb. induction a as [| c a IH]; [exact Hb |].
  cbn [append rstrip]. rewrite IH.
  destruct (a ++ b)%string eqn:E; [| reflexivity].
  destruct a; [simpl in E; congruence | discriminate].
Qed.

Lemma formatted_lines_header : formatted_lines sprite_header = [sprite_header].
Proof. vm_compute. reflexivity. Qed.

Lemma formatted_lines_footer : formatted_lines sprite_footer = [sprite_footer].
Proof. vm_compute. reflexivity. Qed.

Lemma formatted_lines_close : formatted_lines symbol_close = [symbol_close].
Proof. vm_compute. reflexivity. Qed.

Lemma formatted_lines_open (icon_name : string) :
  has_newline icon_name = false ->
  formatted_lines (symbol_open icon_name) = [symbol_open icon_name].
Proof.
  intros Hn.
  set (closing := (dq ++ " viewBox=" ++ dq ++ "0 0 24 24" ++ dq ++ ">")%string).
  set (core := ("<symbol id=" ++ dq ++ icon_name ++ closing)%string).
  assert (Hopen : symbol_open icon_name = ("  " ++ core)%string) by reflexivity.
  assert (Hline : has_newline (symbol_open icon_name) = false).
  { rewrite Hopen. unfold core.
    rewrite !has_newline_app, Hn. reflexivity. }
  unfold formatted_lines. rewrite (split_lines_no_newline _ Hline).
  cbn [flat_map]. rewrite app_nil_r.
  assert (Hr : rstrip core = core).
  { unfold core. rewrite <- !append_assoc. apply rstrip_app_fixed.
    - discriminate.
    - reflexivity. }
  assert (Hs : strip (symbol_open icon_name) = core).
  { rewrite Hopen. unfold strip.
    replace (lstrip ("  " ++ core)) with (lstrip core) by reflexivity.
    rewrite lstrip_fixed by reflexivity. exact Hr. }
  unfold optimize_line. rewrite Hs, Hopen.
  replace (core =? "")%string with false by reflexivity.
  replace (startswith core "<symbol") with true by reflexivity.
  reflexivity.
Qed.

Lemma split_lines_nonempty (s : string) :
  split_lines s = hd "" (split_lines s) :: tl (split_lines s).
Proof. unfold split_lines at 1. now rewrite split_at_cur. Qed.

Lemma formatted_lines_indented (t : string) :
  formatted_lines ("    " ++ t) = formatted_lines t.
Proof.
  unfold formatted_lines.
  replace (split_lines ("    " ++ t)) with (split_at newline t "    ") by reflexivity.
  rewrite split_at_cur. fold (split_lines t).
  rewrite (split_lines_nonempty t) at 3.
  cbn [flat_map]. f_equal.
Qed.

Lemma filter_none {A : Type} (p : A -> bool) (l : list A) :
  (forall a, In a l -> p a = false) -> filter p l = [].
Proof.
  induction l as [| a l IH]; intros H; [reflexivity |].
  cbn [filter]. rewrite (H a (or_introl eq_refl)). apply IH.
  intros a' Ha'. apply H. now right.
Qed.







Section Written.

Variable rt : runtime.

Lemma formatted_element_lines (l : list string) :
  flat_map formatted_lines (map element_line l) = flat_map formatted_lines l.
Proof.
  induction l as [| x l IH]; [reflexivity |].
  cbn [map flat_map]. rewrite IH. unfold element_line.
  now rewrite formatted_lines_indented.
Qed.

Lemma formatted_file_lines (f : svg_file) :
  has_newline (stem (fst f)) = false ->
  flat_map formatted_lines (file_lines rt f) = formatted_block rt f.
Proof.
  intros Hn. unfold file_lines, formatted_block.
  destruct (retained rt f) as [| e els]; [reflexivity |].
  rewrite !flat_map_app, formatted_element_lines. cbn [flat_map].
  rewrite formatted_lines_open by exact Hn. rewrite app_nil_r.
  do 2 f_equal.
  destruct (serializes rt f); [| reflexivity].
  cbn [flat_map]. now rewrite formatted_lines_close, app_nil_r.
Qed.

Lemma formatted_sprite_lines (l : list svg_file) :
  (forall g, In g l -> has_newline (stem (fst g)) = false) ->
  flat_map formatted_lines (flat_map (file_lines rt) l) = flat_map (formatted_block rt) l.
Proof.
  induction l as [| f l IH]; intros Hn; [reflexivity |].
  cbn [flat_map]. rewrite flat_map_app, IH by (intros g Hg; apply Hn; now right).
  now rewrite formatted_file_lines by (apply Hn; now left).
Qed.

(** The lines of the sprite the loop has built, after the formatting
    pass. *)
Lemma formatted_sprite_content (l : list svg_file) (st : state) :
  (forall g, In g l -> has_newline (stem (fst g)) = false) ->
  sprite_content st = [sprite_header] ->
  formatted_lines
    (join nl (sprite_content (fold_left (process_file rt) l st) ++ [sprite_footer]))
  = [sprite_header] ++ flat_map (formatted_block rt) l ++ [sprite_footer].
Proof.
  intros Hn Hst.
  rewrite (proj1 (fold_process_file_sprite rt l st)), Hst.
  rewrite formatted_lines_join by discriminate.
  rewrite !flat_map_app. cbn [flat_map].
  rewrite formatted_lines_header, formatted_lines_footer, !app_nil_r.
  now rewrite formatted_sprite_lines.
Qed.




(** The written sprite, line by line, whatever can be serialized.  For a
    listing whose file stems hold no newline, the file written is the header
    line, then for each file in name order that yields elements its opening
    line as the loop wrote it, the formatted lines of the serializations of
    its elements up to the first that cannot be serialized, and its closing
    line when they all could, then the footer line, joined by newlines: the
    formatting pass leaves the lines of the assembler in place and only
    reformats the serialized elements. *)
Theorem written_sprite_is_header_symbols_footer (f : svg_file) (files : list svg_file) :
  let listing := f :: files in
  (forall g, In g listing -> has_newline (stem (fst g)) = false) ->
  written (generate_sprite rt
             {| icons_dir := Some listing; output_dir_ok := true; output_writable := true |})
  = Some (join nl ([sprite_header]
                   ++ flat_map (formatted_block rt) (sorted listing)
                   ++ [sprite_footer])).
Proof.
  intros listing Hn. subst listing. unfold generate_sprite.
  cbn [icons_dir output_dir_ok output_writable negb].
  set (listing := f :: files) in *.
  cbn [written]. f_equal. unfold optimize_sprite_content.
  match goal with
  | |- join nl (flat_map optimize_line (split_lines ?c)) = _ =>
      fold (formatted_lines c)
  end.
  rewrite formatted_sprite_content; [reflexivity | | reflexivity].
  intros g Hg. apply Hn.
  eapply Permutation_in; [apply Permutation_sym, sorted_perm | exact Hg].
Qed.

(** A listing none of whose files yields an element: the run still writes
    a sprite, the header line and the footer line and nothing between them,
    and reports zero icons. *)
Theorem empty_sprite_is_written (f : svg_file) (files : list svg_file)
    (writable : bool) :
  let listing := f :: files in
  let r := generate_sprite rt
             {| icons_dir := Some listing; output_dir_ok := true;
                output_writable := writable |} in
  (forall g, In g listing -> yields_elements rt g = false) ->
  symbols_of rt listing = []
  /\ (writable = true ->
      written r = Some (sprite_header ++ nl ++ sprite_footer)%string
      /\ In (Success 0) (output r))
  /\ crashed r = false.
Proof.
  intros listing r Hy. subst r listing. unfold generate_sprite.
  cbn [icons_dir output_dir_ok output_writable negb].
  set (listing := f :: files) in *.
  set (st := fold_left (process_file rt) (sorted listing) _).
  destruct (fold_process_file_sprite rt (sorted listing)
              {| sprite_content := [sprite_header]; processed_count := 0;
                 printed := [Processing (List.length listing)] |}) as [Hs Hc].
  fold st in Hs, Hc. cbn [sprite_content processed_count] in Hs, Hc.
  assert (H : forall g, In g (sorted listing) -> yields_elements rt g = false).
  { intros g Hg. apply Hy.
    eapply Permutation_in; [apply Permutation_sym, sorted_perm | exact Hg]. }
  assert (Hf : filter (yields_elements rt) (sorted listing) = [])
    by now apply filter_none.
  assert (Hcomp : filter (completes rt) (sorted listing) = []).
  { apply filter_none. intros g Hg. unfold completes. now rewrite (H g Hg). }
  assert (Hl : flat_map (file_lines rt) (sorted listing) = []).
  { clear - H. induction (sorted listing) as [| g l IH]; [reflexivity |].
    cbn [flat_map]. rewrite IH by (intros g' Hg'; apply H; now right).
    specialize (H g (or_introl eq_refl)).
    unfold yields_elements in H. unfold file_lines.
    destruct (retained rt g); [reflexivity | discriminate]. }
  rewrite Hl in Hs. rewrite Hcomp in Hc. cbn [app List.length] in Hs, Hc.
  split; [unfold symbols_of; now rewrite Hf |]. split.
  - intros ->. cbn [written output]. rewrite Hs, Hc. split.
    + f_equal; vm_compute; reflexivity.
    + apply in_or_app. right. now left.
  - destruct writable; reflexivity.
Qed.

End Written.

(** ** What the extraction returns *)

Lemma reached_drawable (parent : element) :
  Forall (fun e => is_drawable e = true) (reached parent).
Proof.
  induction parent as [parent IH] using element_children_ind.
  destruct parent as [t a tx tl cs]. cbn [children reached] in *.
  induction IH as [| c cs Hc _ IHcs]; [constructor |].
  cbn [flat_map]. apply Forall_app. split; [| exact IHcs].
  destruct (is_drawable c) eqn:Hd; [| exact Hc].
  constructor; [exact Hd | constructor].
Qed.

Section Extraction.

Variable rt : runtime.

Lemma classify_all_invariant (vb : viewbox) (P : element -> Prop) (es : list element) :
  (forall e n, In e es -> normalize_element_to_24x24 rt e vb = Ok n -> P n) ->
  forall acc, Forall P acc -> Forall P (snd (classify_all rt vb es acc)).
Proof.
  induction es as [| e es IH]; intros Hn acc Hacc; simpl; auto.
  assert (Hn' : forall e' n, In e' es -> normalize_element_to_24x24 rt e' vb = Ok n -> P n)
    by (intros e' n Hin; apply Hn; now right).
  destruct (is_background_element rt e vb) as [[|] | ex]; simpl; auto.
  destruct (normalize_element_to_24x24 rt e vb) as [n |] eqn:En; simpl; auto.
  apply IH; auto. apply Forall_app. split; auto.
  constructor; [| constructor]. apply (Hn e n); auto. now left.
Qed.

(** Every element the extraction returns is a drawable shape with fill set
    to currentColor, whatever the file holds; and the extraction never
    returns elements together with a diagnostic. *)
Theorem extracted_elements_are_filled_shapes (content : string) :
  Forall (fun n => is_drawable n = true /\ get n "fill" = Some "currentColor")
         (fst (extract_icon_elements rt content))
  /\ (snd (extract_icon_elements rt content) <> []
      -> fst (extract_icon_elements rt content) = []).
Proof.
  split.
  - unfold extract_icon_elements.
    destruct (extract_try rt content) as [[[] | ex] out] eqn:E.
    + cbn [fst]. unfold extract_try in E.
      destruct (ET_fromstring rt content) as [root |]; [| discriminate].
      apply on_stack_ok in E. rewrite collect_elements_reached in E.
      set (vb := parse_viewbox rt _) in E.
      replace out with (snd (classify_all rt vb (reached root) [])) by now rewrite E.
      apply classify_all_invariant; [| constructor].
      intros e n Hin Hn.
      pose proof (reached_drawable root) as Hd.
      rewrite Forall_forall in Hd. specialize (Hd e Hin).
      destruct (normalize_tag_fill rt e n vb Hn) as (Ht & Hf).
      split; [| exact Hf]. unfold is_drawable in *. now rewrite Ht.
    + destruct ex; constructor.
  - unfold extract_icon_elements.
    destruct (extract_try rt content) as [[[] | ex] out]; [| destruct ex; reflexivity].
    cbn [fst snd]. congruence.
Qed.

Lemma classify_all_zero_size (vb : viewbox) (es : list element) :
  zero_size vb = true ->
  forall acc,
    classify_all rt vb es acc = (Ok tt, acc)
    \/ exists ex, classify_all rt vb es acc = (Raise ex, acc).
Proof.
  intros Hz. induction es as [| e es IH]; intros acc; simpl; auto.
  destruct (is_background_element rt e vb) as [[|] | ex]; eauto.
  rewrite normalize_zero_size by exact Hz. eauto.
Qed.

Lemma classify_all_zero_size_raises (vb : viewbox) (es : list element) :
  zero_size vb = true ->
  (forall e, In e es -> classification_error rt e vb = None) ->
  (exists e, In e es /\ matches_a_rule rt e vb = false) ->
  forall acc, classify_all rt vb es acc = (Raise ZeroDivisionError, acc).
Proof.
  intros Hz. induction es as [| e es IH]; intros Hok (e0 & Hin & He0) acc;
    [contradiction |].
  cbn [classify_all]. rewrite is_background_element_cases, (Hok e (or_introl eq_refl)).
  destruct (matches_a_rule rt e vb) eqn:Em.
  - apply IH.
    + intros e' He'. apply Hok. now right.
    + destruct Hin as [-> | Hin]; [congruence | eauto].
  - now rewrite normalize_zero_size.
Qed.

(** An icon whose viewBox has zero width or zero height never gets a
    symbol: either all its shapes are background, or an exception leaves the
    collection; when the stack has room for the walk, every shape can be
    classified and one of them matches no rule, it is the division by the
    width or the height that raises.  The file adds nothing to the sprite and
    nothing to the count. *)
Theorem zero_size_viewbox_yields_no_symbol (content name : string) (root : element)
    (st : state) :
  let vb := parse_viewbox rt (get_default root "viewBox" "0 0 24 24") in
  ET_fromstring rt content = Some root ->
  zero_size vb = true ->
  fst (extract_icon_elements rt content) = []
  /\ (has_room rt 1 root = true ->
      (forall e, In e (reached root) -> classification_error rt e vb = None) ->
      (exists e, In e (reached root) /\ matches_a_rule rt e vb = false) ->
      extract_icon_elements rt content = ([], [UnexpectedError ZeroDivisionError]))
  /\ sprite_content (process_file rt st (name, Some content)) = sprite_content st
  /\ processed_count (process_file rt st (name, Some content)) = processed_count st.
Proof.
  intros vb Hparse Hz.
  assert (Hx : extract_try rt content = collect_elements_on_stack rt vb 1 root []).
  { unfold extract_try. now rewrite Hparse. }
  assert (Hnil : fst (extract_icon_elements rt content) = []).
  { unfold extract_icon_elements. rewrite Hx.
    destruct (collect_elements_on_stack rt vb 1 root []) as [[[] | ex] out] eqn:E;
      [| destruct ex; reflexivity].
    apply on_stack_ok in E. rewrite collect_elements_reached in E.
    destruct (classify_all_zero_size vb (reached root) Hz []) as [E' | [ex E']];
      rewrite E' in E; [now inversion E | discriminate]. }
  split; [exact Hnil |]. split.
  - intros Hroom Hok Hex. unfold extract_icon_elements.
    rewrite Hx, has_room_collect by exact Hroom.
    now rewrite collect_elements_reached,
      (classify_all_zero_size_raises vb (reached root) Hz Hok Hex).
  - destruct (process_file_sprite rt st (name, Some content)) as [Hs Hc].
    assert (Hret : retained rt (name, Some content) = []) by exact Hnil.
    destruct (file_lines_nothing rt _ Hret) as [Hl Hcomp].
    rewrite Hl, app_nil_r in Hs. rewrite Hcomp, Nat.add_0_r in Hc. auto.
Qed.

(** An icon whose viewBox attribute is malformed is treated as a 24x24
    icon: its viewBox is the default one, and the elements the collection
    returns are the reached elements that match no rule under the default
    viewBox, each with fill set to currentColor and nothing else changed,
    no transform added. *)
Theorem malformed_viewbox_means_24x24 (content s : string) (root : element)
    (out : list element) :
  ET_fromstring rt content = Some root ->
  get root "viewBox" = Some s ->
  malformed_viewbox rt s ->
  extract_try rt content = (Ok tt, out) ->
  parse_viewbox rt s = default_viewbox
  /\ out = map (fun e => set e "fill" "currentColor")
             (filter (fun e => negb (matches_a_rule rt e default_viewbox)) (reached root))
  /\ fst (extract_icon_elements rt content) = out.
Proof.
  intros Hparse Hget Hbad Hx.
  pose proof (parse_viewbox_malformed rt s Hbad) as Hvb.
  split; [exact Hvb |]. split.
  - unfold extract_try in Hx. rewrite Hparse in Hx.
    unfold get_default in Hx. rewrite Hget, Hvb in Hx.
    apply on_stack_ok in Hx. rewrite collect_elements_reached in Hx.
    apply classify_all_ok in Hx as (new & -> & Hnew). cbn [app].
    induction Hnew as [| e n es ns Hn _ IH]; [reflexivity |].
    cbn [map]. rewrite <- IH. f_equal.
    unfold normalize_element_to_24x24 in Hn.
    replace (viewbox_eqb default_viewbox default_viewbox) with true in Hn
      by (vm_compute; reflexivity).
    now inversion Hn.
  - unfold extract_icon_elements. now rewrite Hx.
Qed.

End Extraction.

Section Reporting.

Variable rt : runtime.

(** ** The report *)

Lemma statuses_app (a b : list event) : statuses (a ++ b) = statuses a ++ statuses b.
Proof.
  induction a as [| ev a IH]; [reflexivity |].
  cbn [app statuses]. destruct (file_status ev); now rewrite IH.
Qed.

Lemma filter_is_processed_extract (content : string) :
  statuses (snd (extract_icon_elements rt content)) = []
  /\ filter is_processed (snd (extract_icon_elements rt content)) = [].
Proof.
  unfold extract_icon_elements.
  destruct (extract_try rt content) as [[[] | ex] out]; [auto |].
  destruct ex; auto.
Qed.

Lemma process_file_printed (st : state) (f : svg_file) :
  printed (process_file rt st f) = printed st ++ events_of rt f.
Proof.
  unfold process_file, events_of, serializes, yields_elements, retained.
  destruct f as [name [content |]]; cbn [fst snd]; [| reflexivity].
  destruct (extract_icon_elements rt content) as [[| e els] msgs]; [reflexivity |].
  cbn [fst snd].
  destruct (append_elements_prefix rt (e :: els)
              (sprite_content st ++ [symbol_open (stem name)])) as [_ Hf].
  destruct (append_elements rt (e :: els) (sprite_content st ++ [symbol_open (stem name)]))
    as [r appended].
  cbn [fst] in Hf.
  destruct (all_serialize rt (e :: els)).
  - subst r. reflexivity.
  - destruct Hf as [ex ->]. reflexivity.
Qed.

Lemma fold_process_file_printed (l : list svg_file) :
  forall st,
    printed (fold_left (process_file rt) l st) = printed st ++ flat_map (events_of rt) l.
Proof.
  induction l as [| f l IH]; intros st; cbn [fold_left flat_map].
  - now rewrite app_nil_r.
  - now rewrite IH, process_file_printed, <- app_assoc.
Qed.

Lemma events_of_status (f : svg_file) :
  statuses (events_of rt f) = [stem (fst f)]
  /\ List.length (filter is_processed (events_of rt f))
     = if completes rt f then 1%nat else 0%nat.
Proof.
  unfold events_of, completes. destruct f as [name [content |]]; cbn [fst snd].
  - rewrite statuses_app, filter_app, length_app.
    destruct (filter_is_processed_extract content) as [-> ->].
    destruct (yields_elements rt (name, Some content)),
             (serializes rt (name, Some content)); split; reflexivity.
  - split; reflexivity.
Qed.

Lemma flat_map_events_status (l : list svg_file) :
  statuses (flat_map (events_of rt) l) = map (fun g => stem (fst g)) l
  /\ List.length (filter is_processed (flat_map (events_of rt) l))
     = List.length (filter (completes rt) l).
Proof.
  induction l as [| f l [IH1 IH2]]; [split; reflexivity |].
  cbn [flat_map map filter].
  rewrite statuses_app, filter_app, length_app, IH1, IH2.
  destruct (events_of_status f) as [-> ->].
  destruct (completes rt f); split; reflexivity.
Qed.

(** What a run over a listing with at least one file prints, once the
    output directory is there: the count of files, then for each file in
    name order its diagnostic, if any, and exactly one status line carrying
    its stem (processed for a file that yields elements that all serialize,
    skipped for a file that yields none, error for a file that cannot be
    read or one of whose elements cannot be serialized), then the success
    line or the write error.  The number on the success line is the number of
    files reported as processed. *)
Theorem every_file_is_reported_once (f : svg_file) (files : list svg_file)
    (writable : bool) :
  let listing := f :: files in
  let r := generate_sprite rt
             {| icons_dir := Some listing; output_dir_ok := true;
                output_writable := writable |} in
  output r = [Processing (List.length listing)]
             ++ flat_map (events_of rt) (sorted listing)
             ++ [if writable
                 then Success (List.length (filter is_processed (output r)))
                 else ErrorWriting]
  /\ statuses (output r) = map (fun g => stem (fst g)) (sorted listing)
  /\ List.length (filter is_processed (output r))
     = List.length (filter (completes rt) listing)
  /\ Permutation (map (fun g => stem (fst g)) listing) (statuses (output r)).
Proof.
  intros listing r.
  set (evs := flat_map (events_of rt) (sorted listing)).
  destruct (flat_map_events_status (sorted listing)) as [Hst Hpr]. fold evs in Hst, Hpr.
  assert (Hout : output r = [Processing (List.length listing)] ++ evs
                   ++ [if writable
                       then Success (List.length (filter (completes rt) (sorted listing)))
                       else ErrorWriting]).
  { subst r. unfold listing at 1. unfold generate_sprite.
    cbn [icons_dir output_dir_ok output_writable negb].
    change (f :: files) with listing.
    set (st := fold_left (process_file rt) (sorted listing) _).
    pose proof (fold_process_file_printed (sorted listing)
                  {| sprite_content := [sprite_header]; processed_count := 0;
                     printed := [Processing (List.length listing)] |}) as Hp.
    destruct (fold_process_file_sprite rt (sorted listing)
                {| sprite_content := [sprite_header]; processed_count := 0;
                   printed := [Processing (List.length listing)] |}) as [_ Hc].
    fold st in Hp, Hc. cbn [printed processed_count] in Hp, Hc. fold evs in Hp.
    destruct writable; cbn [output]; rewrite Hp, ?Hc, <- app_assoc; reflexivity. }
  assert (Hcount : List.length (filter is_processed (output r))
                   = List.length (filter (completes rt) (sorted listing))).
  { rewrite Hout, !filter_app, !length_app, Hpr.
    destruct writable; cbn [filter is_processed List.length]; lia. }
  assert (Hstat : statuses (output r) = map (fun g => stem (fst g)) (sorted listing)).
  { rewrite Hout, !statuses_app, Hst.
    destruct writable; cbn [statuses file_status app]; now rewrite app_nil_r. }
  split; [| split; [| split]].
  - rewrite Hcount. exact Hout.
  - exact Hstat.
  - rewrite Hcount.
    apply Permutation_length, Permutation_filter, Permutation_sym, sorted_perm.
  - rewrite Hstat. apply Permutation_map, sorted_perm.
Qed.



End Reporting.

(** ** The transform in exact arithmetic *)

(** In exact rational arithmetic the transform the normalizer builds for a
    viewBox x y w h with w and h not zero is the affine map of the source
    frame onto the 24x24 frame: it sends every point (px, py) to
    ((px - x) * 24 / w, (py - y) * 24 / h), whichever of its two components
    have been left out as identities. *)
Theorem exact_transform_is_affine (x y w h px py : Q) :
  ~ (w == 0)%Q -> ~ (h == 0)%Q ->
  exists q,
    scale_translate Q_arith (x, y, w, h) = Ok q
    /\ Qpoint_eq (apply_transforms Q_arith (build_transforms Q_arith q) (px, py))
                 (((px - x) * (24 / w))%Q, ((py - y) * (24 / h))%Q).
Proof.
  intros Hw Hh. unfold scale_translate. cbn [Q_arith a_div a_int a_mul a_neg].
  assert (Ew : Qeq_bool w 0%Q = false).
  { destruct (Qeq_bool w 0%Q) eqn:E; auto. apply Qeq_bool_eq in E. contradiction. }
  assert (Eh : Qeq_bool h 0%Q = false).
  { destruct (Qeq_bool h 0%Q) eqn:E; auto. apply Qeq_bool_eq in E. contradiction. }
  rewrite Ew, Eh. cbn [bind]. eexists. split; [reflexivity |].
  change (inject_Z 24) with 24%Q.
  set (sx := (24 / w)%Q). set (sy := (24 / h)%Q).
  unfold build_transforms. cbn [Q_arith a_eqb a_int].
  change (inject_Z 0) with 0%Q. change (inject_Z 1) with 1%Q.
  destruct (negb (Qeq_bool (- x * sx) 0) || negb (Qeq_bool (- y * sy) 0))%Q eqn:T;
  destruct (negb (Qeq_bool sx 1) || negb (Qeq_bool sy 1))%Q eqn:S;
    try (apply orb_false_elim in T as [Tx Ty];
         apply negb_false_iff in Tx; apply negb_false_iff in Ty;
         apply Qeq_bool_eq in Tx; apply Qeq_bool_eq in Ty);
    try (apply orb_false_elim in S as [Sx Sy];
         apply negb_false_iff in Sx; apply negb_false_iff in Sy;
         apply Qeq_bool_eq in Sx; apply Qeq_bool_eq in Sy);
    cbn [app apply_transforms fold_right apply_one Q_arith a_add a_mul fst snd];
    unfold Qpoint_eq; cbn [fst snd]; split;
    try rewrite Sx; try rewrite Sy; try (rewrite Sx in Tx); try (rewrite Sy in Ty);
    nra.
Qed.

(** ** Namespaces *)

Lemma last_segment_no_brace (s cur : string) :
  has_brace s = false -> last_segment s cur = (cur ++ s)%string.
Proof.
  revert cur. induction s as [| c s IH]; intros cur; simpl.
  - now rewrite append_nil_r.
  - intros H. apply orb_false_iff in H as [Hc Hs].
    rewrite Hc, IH by exact Hs. apply snoc_app.
Qed.

Lemma last_segment_app (a b cur : string) :
  last_segment (a ++ String "}" b) cur = last_segment b "".
Proof.
  revert cur. induction a as [| c a IH]; intros cur; simpl; auto.
  destruct (Ascii.eqb c "}"); apply IH.
Qed.

Lemma local_name_namespaced (ns name : string) :
  has_brace name = false ->
  local_name ("{" ++ ns ++ "}" ++ name) = name /\ local_name name = name.
Proof.
  intros H. unfold local_name. split.
  - change ("{" ++ ns ++ "}" ++ name)%string with (("{" ++ ns) ++ String "}" name)%string.
    rewrite last_segment_app. now apply last_segment_no_brace.
  - now apply last_segment_no_brace.
Qed.

Section Namespaces.

Variable rt : runtime.

(** The script reads tags without their namespace: an element whose tag is
    {ns}name is drawable, is classified and is normalized exactly as the
    element with the bare tag name is, the tag of the result apart. *)
Theorem namespace_is_ignored (ns name : string) (a : list (string * string))
    (tx tl : option string) (cs : list element) (vb : viewbox) :
  let qualified := Element ("{" ++ ns ++ "}" ++ name) a tx tl cs in
  let bare := Element name a tx tl cs in
  has_brace name = false ->
  local_name (tag qualified) = name
  /\ is_drawable qualified = is_drawable bare
  /\ is_background_element rt qualified vb = is_background_element rt bare vb
  /\ match normalize_element_to_24x24 rt qualified vb,
           normalize_element_to_24x24 rt bare vb with
     | Ok n1, Ok n2 => attrib n1 = attrib n2 /\ tag n1 = tag qualified /\ tag n2 = name
     | Raise ex1, Raise ex2 => ex1 = ex2
     | _, _ => False
     end.
Proof.
  intros qualified bare H.
  destruct (local_name_namespaced ns name H) as [Hq Hb].
  split; [exact Hq |]. split; [| split].
  - unfold is_drawable, qualified, bare. cbn [tag]. now rewrite Hq, Hb.
  - unfold is_background_element, qualified, bare, get, get_default, float_attr, get.
    cbn [tag attrib]. now rewrite Hq, Hb.
  - unfold normalize_element_to_24x24.
    destruct (viewbox_eqb vb default_viewbox); [repeat split |].
    destruct (scale_translate py_arith vb) as [p | ex]; cbn [bind]; [| reflexivity].
    destruct (map (render rt) (build_transforms py_arith p)); [repeat split |].
    unfold get_default, get, qualified, bare. cbn [attrib].
    destruct (assoc_get "transform" a) as [v |]; [| repeat split].
    destruct (v =? "")%string; repeat split.
Qed.

End Namespaces.

(** ** The diagnostics of the extraction *)

Section Diagnostics.

Variable rt : runtime.

Lemma classification_error_kinds (e : element) (vb : viewbox) (ex : exn) :
  classification_error rt e vb = Some ex -> element_error ex = true.
Proof.
  unfold classification_error.
  destruct (rule_a e); [discriminate |].
  destruct (local_name (tag e) =? "path")%string.
  - destruct vb as [[[vx vy] vw] vh].
    assert (Hi : forall n ex', py_int n = Raise ex' -> element_error ex' = true).
    { intros [z | f] ex'; cbn [py_int]; [discriminate |].
      unfold int_of_float. destruct (Prim2SF f); intros [= <-]; reflexivity. }
    destruct (py_int vw) eqn:Ew; [| intros [= <-]; now apply (Hi vw)].
    destruct (py_int vh) eqn:Eh; [discriminate | intros [= <-]; now apply (Hi vh)].
  - destruct (local_name (tag e) =? "rect")%string; [| discriminate].
    destruct (attr_value rt e "x"), (attr_value rt e "y"),
             (attr_value rt e "width"), (attr_value rt e "height");
      try discriminate; intros [= <-]; reflexivity.
Qed.

Lemma classify_all_error_kinds (vb : viewbox) (es : list element) :
  forall acc ex c,
    classify_all rt vb es acc = (Raise ex, c) -> element_error ex = true.
Proof.
  induction es as [| e es IH]; intros acc ex c; simpl; [discriminate |].
  pose proof (is_background_element_cases rt e vb) as Hb.
  destruct (is_background_element rt e vb) as [[|] | ex1] eqn:Eb.
  - apply IH.
  - destruct (normalize_element_to_24x24 rt e vb) as [n | ex2] eqn:En; [apply IH |].
    intros [= <- _]. rewrite normalize_zero_size in En.
    + now inversion En.
    + destruct (zero_size vb) eqn:Hz; [reflexivity |].
      exfalso. revert En. unfold normalize_element_to_24x24.
      destruct (viewbox_eqb vb default_viewbox); [discriminate |].
      destruct vb as [[[vx vy] vw] vh]. unfold zero_size in Hz.
      apply orb_false_iff in Hz as [Hw Hh].
      unfold scale_translate. cbn [py_arith a_div a_int]. unfold num_div.
      rewrite Hw, Hh. discriminate.
  - intros [= <- _].
    destruct (classification_error rt e vb) as [ex' |] eqn:Ec; [| discriminate].
    inversion Hb; subst. now apply (classification_error_kinds e vb).
Qed.

Lemma element_error_collection_error (ex : exn) :
  element_error ex = true -> collection_error ex = true.
Proof. destruct ex; auto. Qed.

(** What the extraction prints.  It prints the XML parse error exactly when
    the content is not well-formed XML, and the unexpected error exactly when
    an exception leaves the collection of a parsed document; that exception
    is a ValueError, an OverflowError, a ZeroDivisionError or a
    RecursionError, and never a RecursionError when the stack has room for
    the walk over the document.  It prints at most one line, and none when
    it returns normally. *)
Theorem extraction_diagnostics (content : string) :
  (snd (extract_icon_elements rt content) = [XmlParseError]
   <-> ET_fromstring rt content = None)
  /\ (forall ex,
        snd (extract_icon_elements rt content) = [UnexpectedError ex]
        <-> exists collected, ET_fromstring rt content <> None
              /\ extract_try rt content = (Raise ex, collected))
  /\ (forall ex,
        snd (extract_icon_elements rt content) = [UnexpectedError ex]
        -> collection_error ex = true)
  /\ (forall ex root,
        snd (extract_icon_elements rt content) = [UnexpectedError ex]
        -> ET_fromstring rt content = Some root
        -> has_room rt 1 root = true
        -> element_error ex = true)
  /\ (snd (extract_icon_elements rt content) = []
      <-> exists out, extract_try rt content = (Ok tt, out)).
Proof.
  assert (Hkinds : forall ex c, extract_try rt content = (Raise ex, c) ->
            ET_fromstring rt content <> None -> collection_error ex = true).
  { unfold extract_try. intros ex c.
    destruct (ET_fromstring rt content) as [root |]; [| congruence].
    intros H _. apply on_stack_raises in H as [-> | H]; [reflexivity |].
    rewrite collect_elements_reached in H.
    now apply classify_all_error_kinds, element_error_collection_error in H. }
  assert (Hroomy : forall ex c root, extract_try rt content = (Raise ex, c) ->
            ET_fromstring rt content = Some root -> has_room rt 1 root = true ->
            element_error ex = true).
  { unfold extract_try. intros ex c root H Hp Hroom. rewrite Hp in H.
    rewrite has_room_collect, collect_elements_reached in H by exact Hroom.
    now apply classify_all_error_kinds in H. }
  assert (Hnone : ET_fromstring rt content = None ->
            extract_try rt content = (Raise ParseError, [])).
  { unfold extract_try. now intros ->. }
  unfold extract_icon_elements.
  destruct (extract_try rt content) as [[[] | ex] out] eqn:E; cbn [snd].
  - split; [| split; [| split; [| split]]].
    + split; [discriminate |]. intros H. specialize (Hnone H). congruence.
    + intros ex. split; [discriminate | intros (c & _ & ?); discriminate].
    + discriminate.
    + discriminate.
    + split; eauto.
  - destruct (ET_fromstring rt content) as [root |] eqn:Ep.
    + assert (Hex : collection_error ex = true)
        by (apply (Hkinds ex out eq_refl); discriminate).
      destruct ex; try discriminate Hex;
        (split; [| split; [| split; [| split]]];
         [ split; discriminate
         | intros ex'; split;
           [ intros [= <-]; exists out; split; [discriminate | reflexivity]
           | intros (c & _ & [= <- _]); reflexivity ]
         | intros ex' [= <-]; reflexivity
         | intros ex' root' [= <-] [= <-] Hroom;
           exact (Hroomy _ out root eq_refl eq_refl Hroom)
         | split; [discriminate | intros (o & ?); discriminate] ]).
    + specialize (Hnone eq_refl). assert (ex = ParseError) by congruence. subst ex.
      split; [| split; [| split; [| split]]].
      * split; reflexivity.
      * intros ex'. split; [discriminate | intros (c & Hc & _); congruence].
      * discriminate.
      * discriminate.
      * split; [discriminate | intros (o & ?); discriminate].
Qed.

End Diagnostics.

(** * The theorems at concrete inputs *)

Section Evaluation.

Import Reference Examples Samples.



(** C3, at a failing input.  A path with transform="translate(24,24)" in a
    48x48 icon: the normalizer writes the attribute it had first and the
    normalization after it, "translate(24,24) scale(0.5,0.5)", so the
    normalization is applied to the point first and the transform of the
    element second.  The origin of the path ends at (24,24); with the
    normalization prepended, "scale(0.5,0.5) translate(24,24)", it would end
    at (12,12), the place of the source point (24,24) in the 24x24 frame. *)
Theorem existing_transform_comes_first :
  parse_viewbox python "0 0 48 48" = viewbox_48
  /\ exists n,
       normalize_element_to_24x24 python moved_path viewbox_48 = Ok n
       /\ get n "transform" = Some "translate(24,24) scale(0.5,0.5)"
       /\ get n "transform" <> Some "scale(0.5,0.5) translate(24,24)"
       /\ apply_transforms py_arith
            [Translate (PyFloat 24) (PyFloat 24); Scale (PyFloat 0.5) (PyFloat 0.5)]
            (PyFloat 0, PyFloat 0)
          = (PyFloat 24, PyFloat 24)
       /\ apply_transforms py_arith
            [Scale (PyFloat 0.5) (PyFloat 0.5); Translate (PyFloat 24) (PyFloat 24)]
            (PyFloat 0, PyFloat 0)
          = (PyFloat 12, PyFloat 12).
Proof.
  split; [vm_compute; reflexivity |].
  eexists. split; [vm_compute; reflexivity |].
  repeat split; try (vm_compute; reflexivity).
  vm_compute. discriminate.
Qed.

(** A rect with x="abc": no rule matches it, and it is not retained, for
    the classifier raises ValueError.  A path with the hard-coded background
    pattern under a viewBox of infinite width: rule (b) matches it, and the
    classifier does not return true, for it raises OverflowError. *)
Lemma unmatched_rect_is_not_retained :
  py_float "abc" = None
  /\ matches_a_rule python nested_rect default_viewbox = false
  /\ is_background_element python nested_rect default_viewbox = Raise ValueError
  /\ is_background_element python nested_rect default_viewbox <> Ok false
  /\ parse_viewbox python "0 0 inf 24" = viewbox_wide
  /\ matches_a_rule python background_path viewbox_wide = true
  /\ is_background_element python background_path viewbox_wide = Raise OverflowError.
Proof.
  repeat split; try (vm_compute; reflexivity).
  vm_compute. discriminate.
Qed.

Lemma normalize_default_viewbox_witness :
  viewbox_eqb viewbox_24 default_viewbox = true
  /\ exists n,
       normalize_element_to_24x24 python moved_path viewbox_24 = Ok n
       /\ get n "fill" = Some "currentColor"
       /\ get n "transform" = Some "translate(24,24)"
       /\ get n "d" = Some "M0 0h10v10z".
Proof.
  assert (Hvb : viewbox_eqb viewbox_24 default_viewbox = true) by (vm_compute; reflexivity).
  split; [exact Hvb |].
  destruct (normalize_default_viewbox python moved_path viewbox_24 Hvb)
    as (n & Hn & _ & Hfill & Ht & Hk & _).
  exists n. split; [exact Hn |]. split; [exact Hfill |]. split; [exact Ht |].
  rewrite Hk; [reflexivity | discriminate].
Defined.





(** A viewBox of width zero: the division of line 92 raises when the first
    element is normalized.  A file that is not well-formed: the parser
    raises.  Both files are reported and skipped. *)
Lemma zero_width_and_malformed_files_raise :
  extract_try python flat_svg = (Raise ZeroDivisionError, [])
  /\ extract_icon_elements python flat_svg = ([], [UnexpectedError ZeroDivisionError])
  /\ extract_try python malformed_svg = (Raise ParseError, [])
  /\ extract_icon_elements python malformed_svg = ([], [XmlParseError])
  /\ output (generate_sprite python
               {| icons_dir := Some [("flat.svg", Some flat_svg);
                                     ("cut.svg", Some malformed_svg);
                                     ("lost.svg", None);
                                     ("home.svg", Some home_svg)];
                  output_dir_ok := true; output_writable := true |})
     = [ Processing 4;
         XmlParseError; Skipped "cut";
         UnexpectedError ZeroDivisionError; Skipped "flat";
         Processed "home";
         ErrorProcessing "lost";
         Success 1 ].
Proof. repeat split; vm_compute; reflexivity. Qed.

Lemma setup_errors_abort_witness :
  generate_sprite python
    {| icons_dir := None; output_dir_ok := true; output_writable := true |}
  = {| output := [IconsDirNotFound]; written := None; crashed := false |}
  /\ generate_sprite python
       {| icons_dir := Some []; output_dir_ok := true; output_writable := true |}
     = {| output := [NoSvgFilesFound]; written := None; crashed := false |}.
Proof.
  split.
  - apply (proj1 (setup_errors_abort python _)). reflexivity.
  - apply (proj1 (proj2 (setup_errors_abort python _))). reflexivity.
Defined.

Lemma generate_sprite_deterministic_witness :
  NoDup (map fst listing)
  /\ Permutation listing listing'
  /\ generate_sprite python
       {| icons_dir := Some listing; output_dir_ok := true; output_writable := true |}
     = generate_sprite python
       {| icons_dir := Some listing'; output_dir_ok := true; output_writable := true |}.
Proof.
  assert (Hnd : NoDup (map fst listing)).
  { repeat constructor; simpl; intuition discriminate. }
  assert (Hp : Permutation listing listing').
  { unfold listing, listing'.
    eapply perm_trans; [apply perm_skip, perm_swap | apply perm_swap]. }
  split; [exact Hnd |]. split; [exact Hp |].
  exact (generate_sprite_deterministic python listing listing' true true Hnd Hp).
Defined.

(** Whatever is below the circle, the collector returns the path and the
    circle, and never looks at the rect with x="abc". *)
Lemma collector_stops_at_drawables_witness :
  Forall2 same_above_drawables (children (tree_with [nested_rect])) (children (tree_with []))
  /\ reached (tree_with [nested_rect])
       = [plain_path; Element "circle" [("r", "5")] None None [nested_rect]]
  /\ fst (collect_elements python viewbox_24 (tree_with []) [])
       = fst (collect_elements python viewbox_24 (tree_with [nested_rect]) [])
  /\ Forall2 same_node
       (snd (collect_elements python viewbox_24 (tree_with [nested_rect]) []))
       (snd (collect_elements python viewbox_24 (tree_with []) [])).
Proof.
  assert (H : Forall2 same_above_drawables
                (children (tree_with [nested_rect])) (children (tree_with []))).
  { constructor; [| constructor].
    apply same_container; [reflexivity | repeat split |].
    constructor; [| constructor; [| constructor]].
    - apply same_drawable; [reflexivity | repeat split].
    - apply same_drawable; [reflexivity | repeat split]. }
  split; [exact H |]. split; [reflexivity |].
  exact (proj1 (proj2 (proj2 (collector_stops_at_drawables python viewbox_24
                                (tree_with [nested_rect]) []))) (tree_with []) H).
Defined.

(** broken.svg: the collector reaches the rect with x="abc", and the file
    yields nothing. *)
Lemma unparsable_rect_drops_file_witness :
  ET_fromstring python broken_svg
    = Some (Element "svg" [("viewBox", "0 0 48 48")] None None
              [ Element "path" [("d", "M1 1")] None None [];
                Element "g" [] None None [broken_rect] ])
  /\ unparsable_geometry python broken_rect
  /\ fst (extract_icon_elements python broken_svg) = []
  /\ (exists d, snd (extract_icon_elements python broken_svg) = [d]
                /\ is_diagnostic d = true).
Proof.
  set (root := Element "svg" [("viewBox", "0 0 48 48")] None None
                 [ Element "path" [("d", "M1 1")] None None [];
                   Element "g" [] None None [broken_rect] ]).
  assert (Hparse : ET_fromstring python broken_svg = Some root)
    by (vm_compute; reflexivity).
  assert (Hbad : unparsable_geometry python broken_rect).
  { exists "x", "abc". split; [now left |]. split; vm_compute; reflexivity. }
  assert (Hin : In broken_rect (reached root)) by (right; left; reflexivity).
  assert (Htag : local_name (tag broken_rect) = "rect") by reflexivity.
  assert (Hfill : get broken_rect "fill" <> Some "none") by discriminate.
  split; [exact Hparse |]. split; [exact Hbad |].
  destruct (unparsable_rect_drops_file python broken_svg root broken_rect
              Hparse Hin Htag Hfill Hbad) as (_ & _ & Hnil & Hd & _).
  split; [exact Hnil | exact Hd].
Defined.

(** alarm.svg holds a rect with x="abc" and no fill="none", inside a
    circle: the rect is never classified, no exception is raised, and the
    file yields its circle and gets its symbol. *)
Lemma nested_rect_is_never_classified :
  ET_fromstring python nested_svg
    = Some (Element "svg" [] None None [nested_circle])
  /\ In nested_rect (descendants (Element "svg" [] None None [nested_circle]))
  /\ local_name (tag nested_rect) = "rect"
  /\ get nested_rect "fill" = None
  /\ unparsable_geometry python nested_rect
  /\ extract_try python nested_svg
       = (Ok tt, [set nested_circle "fill" "currentColor"])
  /\ fst (extract_icon_elements python nested_svg) <> []
  /\ output (generate_sprite python
               {| icons_dir := Some [("alarm.svg", Some nested_svg)];
                  output_dir_ok := true; output_writable := true |})
     = [Processing 1; Processed "alarm"; Success 1].
Proof.
  split; [vm_compute; reflexivity |].
  split; [right; left; reflexivity |].
  split; [reflexivity |]. split; [reflexivity |].
  split.
  { exists "x", "abc". split; [now left |]. split; vm_compute; reflexivity. }
  split; [vm_compute; reflexivity |].
  split; [vm_compute; discriminate | vm_compute; reflexivity].
Qed.

(** A path with fill="none" is background by rule (a), whatever else it
    carries. *)
Lemma is_background_element_rules_witness :
  rule_a (Element "path" [("fill", "none"); ("d", "M1 1")] None None []) = true
  /\ is_background_element python
       (Element "path" [("fill", "none"); ("d", "M1 1")] None None []) viewbox_wide
     = Ok true.
Proof.
  assert (Ha : rule_a (Element "path" [("fill", "none"); ("d", "M1 1")] None None []) = true)
    by reflexivity.
  split; [exact Ha |].
  exact (proj2 (proj2 (proj2 (is_background_element_rules python _ viewbox_wide))) Ha).
Defined.

(** The example of the specification: home.svg, a 48x48 icon with a
    background rect and one path, gives the symbol "home" with the path
    alone, scaled by one half and filled with the current colour. *)
Lemma sprite_of_home_svg :
  generate_sprite python
    {| icons_dir := Some [("home.svg", Some home_svg)];
       output_dir_ok := true; output_writable := true |}
  = {| output := [Processing 1; Processed "home"; Success 1];
       written :=
         Some (join nl
           [ "<svg xmlns=" ++ dq ++ "http://www.w3.org/2000/svg" ++ dq
               ++ " style=" ++ dq ++ "display: none;" ++ dq ++ ">";
             "  <symbol id=" ++ dq ++ "home" ++ dq
               ++ " viewBox=" ++ dq ++ "0 0 24 24" ++ dq ++ ">";
             "    <path d=" ++ dq ++ "M10 10h28v28z" ++ dq
               ++ " transform=" ++ dq ++ "scale(0.5,0.5)" ++ dq
               ++ " fill=" ++ dq ++ "currentColor" ++ dq ++ " />";
             "  </symbol>";
             "</svg>" ]%string);
       crashed := false |}.
Proof. vm_compute. reflexivity. Qed.

(** moved_path in a 48x48 icon: its transform attribute becomes
    "translate(24,24) scale(0.5,0.5)". *)
Lemma normalize_existing_transform_witness :
  viewbox_eqb viewbox_48 default_viewbox = false
  /\ get moved_path "transform" = Some "translate(24,24)"
  /\ exists n,
       normalize_element_to_24x24 python moved_path viewbox_48 = Ok n
       /\ get n "transform" = Some "translate(24,24) scale(0.5,0.5)".
Proof.
  assert (Hvb : viewbox_eqb viewbox_48 default_viewbox = false) by (vm_compute; reflexivity).
  assert (Hp : scale_translate py_arith viewbox_48
               = Ok (PyFloat 0.5, PyFloat 0.5, PyFloat (-0), PyFloat (-0)))
    by (vm_compute; reflexivity).
  assert (Hne : build_transforms py_arith (PyFloat 0.5, PyFloat 0.5, PyFloat (-0), PyFloat (-0))
                <> []) by (vm_compute; discriminate).
  assert (Hget : get moved_path "transform" = Some "translate(24,24)") by reflexivity.
  assert (Hex : "translate(24,24)" <> "") by discriminate.
  split; [exact Hvb |]. split; [exact Hget |].
  destruct (normalize_existing_transform python moved_path viewbox_48 _ _ Hvb Hp Hne Hget Hex)
    as (n & Hn & Ht & _).
  exists n. split; [exact Hn |]. rewrite Ht. vm_compute. reflexivity.
Defined.

(** blank.svg holds only the path that is the 24x24 background: it is
    skipped. *)
Lemma background_only_file_is_skipped_witness :
  ET_fromstring python blank_svg
    = Some (Element "svg" [("viewBox", "0 0 24 24")] None None
              [Element "path" [("d", " M0 0h24v24H0z ")] None None []])
  /\ extract_icon_elements python blank_svg = ([], [])
  /\ printed (process_file python start ("blank.svg", Some blank_svg))
     = [Skipped "blank"].
Proof.
  set (root := Element "svg" [("viewBox", "0 0 24 24")] None None
                 [Element "path" [("d", " M0 0h24v24H0z ")] None None []]).
  assert (Hparse : ET_fromstring python blank_svg = Some root) by (vm_compute; reflexivity).
  assert (Hroom : has_room python 1 root = true) by (vm_compute; reflexivity).
  assert (Hbg : forall e, In e (reached root) ->
            is_background_element python e
              (parse_viewbox python (get_default root "viewBox" "0 0 24 24")) = Ok true).
  { intros e [<- | []]. vm_compute. reflexivity. }
  destruct (background_only_file_is_skipped python blank_svg "blank.svg" root start
              Hparse Hroom Hbg)
    as [Hx Hstep].
  split; [exact Hparse |]. split; [exact Hx |].
  rewrite Hstep. reflexivity.
Defined.

End Evaluation.

(** * The further properties at concrete inputs *)

Section Instances.

Import Reference Examples Samples.

(** moved_path in a 48x48 icon: the normalizer changes its transform and
    adds the fill; the d attribute and the tag stay. *)
Lemma normalize_touches_fill_and_transform_only_witness :
  let n := Element "path"
             [("transform", "translate(24,24) scale(0.5,0.5)"); ("d", "M0 0h10v10z");
              ("fill", "currentColor")] None None [] in
  normalize_element_to_24x24 python moved_path viewbox_48 = Ok n
  /\ tag n = tag moved_path
  /\ get n "fill" = Some "currentColor"
  /\ get n "d" = get moved_path "d".
Proof.
  intros n.
  assert (E : normalize_element_to_24x24 python moved_path viewbox_48 = Ok n)
    by (vm_compute; reflexivity).
  destruct (normalize_touches_fill_and_transform_only python moved_path n viewbox_48 E)
    as (Ht & _ & _ & _ & Hf & Hk & _).
  split; [exact E |]. split; [exact Ht |]. split; [exact Hf |].
  apply Hk; discriminate.
Defined.

(** The viewBox 2 3 24 24: the transform is translate(-2.0,-3.0). *)
Lemma offset_viewbox_translates_witness :
  viewbox_eqb offset_viewbox default_viewbox = false
  /\ build_transforms py_arith (PyFloat 1, PyFloat 1, PyFloat (- 2), PyFloat (- 3))%float
     = [Translate (PyFloat (- 2)%float) (PyFloat (- 3)%float)]
  /\ exists n,
       normalize_element_to_24x24 python circle offset_viewbox = Ok n
       /\ get n "transform" = Some "translate(-2.0,-3.0)".
Proof.
  assert (Hvb : viewbox_eqb offset_viewbox default_viewbox = false)
    by (vm_compute; reflexivity).
  destruct (offset_viewbox_translates python 2 3 circle Hvb) as (_ & Hb & Hn).
  split; [exact Hvb |]. split; [exact Hb |].
  destruct (Hn eq_refl) as (n & En & Et).
  exists n. split; [exact En |]. rewrite Et. vm_compute. reflexivity.
Defined.

(** The viewBox 0 0 48 48: the transform is the scale alone. *)
Lemma origin_viewbox_scales_witness :
  exists p,
    scale_translate py_arith viewbox_48 = Ok p
    /\ build_transforms py_arith p = [Scale (PyFloat 0.5) (PyFloat 0.5)].
Proof.
  assert (Hx : num_eqb (PyFloat 0) (PyInt 0) = true) by (vm_compute; reflexivity).
  assert (Hw : num_eqb (PyFloat 48) (PyInt 0) = false) by (vm_compute; reflexivity).
  assert (Fs : is_finite (24 / 48)%float = true) by (vm_compute; reflexivity).
  destruct (origin_viewbox_scales 0 0 48 48 Hx Hx Hw Hw Fs Fs) as (p & Hp & Hb).
  exists p. split; [exact Hp |]. rewrite Hb. vm_compute. reflexivity.
Defined.

(** A circle without fill="none" is not background, under any viewBox. *)
Lemma other_shapes_are_background_by_fill_only_witness :
  is_background_element python circle viewbox_wide = Ok false.
Proof.
  assert (Hp : local_name (tag circle) <> "path") by (vm_compute; discriminate).
  assert (Hr : local_name (tag circle) <> "rect") by (vm_compute; discriminate).
  rewrite (proj1 (other_shapes_are_background_by_fill_only python circle viewbox_wide Hp Hr)).
  reflexivity.
Defined.

(** The 24x24 square path is background in a 48x48 icon. *)
Lemma hard_coded_patterns_match_under_every_viewbox_witness :
  In (strip (get_default background_path "d" "")) hard_coded_patterns
  /\ is_background_element python background_path viewbox_48 = Ok true.
Proof.
  assert (Hin : In (strip (get_default background_path "d" "")) hard_coded_patterns)
    by (left; reflexivity).
  split; [exact Hin |].
  exact (hard_coded_patterns_match_under_every_viewbox python background_path
           (PyFloat 0) (PyFloat 0) (PyFloat 48) (PyFloat 48) 48 48
           eq_refl Hin eq_refl eq_refl).
Defined.

(** flat.svg, an icon with viewBox 0 0 0 24 and one path: the division by
    its width raises, and the file adds nothing. *)
Lemma zero_size_viewbox_yields_no_symbol_witness :
  let root := Element "svg" [("viewBox", "0 0 0 24")] None None
                [Element "path" [("d", "M1 1")] None None []] in
  ET_fromstring python flat_svg = Some root
  /\ zero_size (parse_viewbox python (get_default root "viewBox" "0 0 24 24")) = true
  /\ fst (extract_icon_elements python flat_svg) = []
  /\ sprite_content (process_file python start ("flat.svg", Some flat_svg))
     = sprite_content start.
Proof.
  intros root.
  assert (Hparse : ET_fromstring python flat_svg = Some root) by (vm_compute; reflexivity).
  assert (Hz : zero_size (parse_viewbox python (get_default root "viewBox" "0 0 24 24")) = true)
    by (vm_compute; reflexivity).
  destruct (zero_size_viewbox_yields_no_symbol python flat_svg "flat.svg" root start Hparse Hz)
    as (Hnil & _ & Hs & _).
  split; [exact Hparse |]. split; [exact Hz |]. split; [exact Hnil | exact Hs].
Defined.

(** short.svg has viewBox="0 0 48": it is treated as a 24x24 icon and its
    path gets no transform. *)
Lemma malformed_viewbox_means_24x24_witness :
  let path := Element "path" [("d", "M10 10h28v28z")] None None [] in
  let root := Element "svg" [("viewBox", "0 0 48")] None None [path] in
  ET_fromstring python short_svg = Some root
  /\ malformed_viewbox python "0 0 48"
  /\ parse_viewbox python "0 0 48" = default_viewbox
  /\ fst (extract_icon_elements python short_svg) = [set path "fill" "currentColor"].
Proof.
  intros path root.
  assert (Hparse : ET_fromstring python short_svg = Some root) by (vm_compute; reflexivity).
  assert (Hget : get root "viewBox" = Some "0 0 48") by reflexivity.
  assert (Hbad : malformed_viewbox python "0 0 48").
  { left. vm_compute. discriminate. }
  assert (Hx : extract_try python short_svg = (Ok tt, [set path "fill" "currentColor"]))
    by (vm_compute; reflexivity).
  destruct (malformed_viewbox_means_24x24 python short_svg "0 0 48" root _
              Hparse Hget Hbad Hx) as (Hvb & _ & Hout).
  split; [exact Hparse |]. split; [exact Hbad |]. split; [exact Hvb | exact Hout].
Defined.

(** The sprite of the three-file listing, line by line. *)
Lemma written_sprite_is_header_symbols_footer_witness :
  (forall g, In g listing -> has_newline (stem (fst g)) = false)
  /\ written (generate_sprite python
                {| icons_dir := Some listing; output_dir_ok := true;
                   output_writable := true |})
     = Some (join nl ([sprite_header]
                      ++ flat_map (formatted_block python) (sorted listing)
                      ++ [sprite_footer])).
Proof.
  assert (Hn : forall g, In g listing -> has_newline (stem (fst g)) = false).
  { intros g [<- | [<- | [<- | []]]]; reflexivity. }
  split; [exact Hn |].
  exact (written_sprite_is_header_symbols_footer python _ _ Hn).
Defined.

(** A directory holding only blank.svg: the sprite is written, empty. *)
Lemma empty_sprite_is_written_witness :
  (forall g, In g [("blank.svg", Some blank_svg)] -> yields_elements python g = false)
  /\ written (generate_sprite python
                {| icons_dir := Some [("blank.svg", Some blank_svg)];
                   output_dir_ok := true; output_writable := true |})
     = Some (sprite_header ++ nl ++ sprite_footer)%string.
Proof.
  assert (Hy : forall g, In g [("blank.svg", Some blank_svg)]
                 -> yields_elements python g = false).
  { intros g [<- | []]. vm_compute. reflexivity. }
  split; [exact Hy |].
  exact (proj1 (proj1 (proj2 (empty_sprite_is_written python _ [] true Hy)) eq_refl)).
Defined.


(** The viewBox 12 6 48 36 in exact arithmetic: the point (36, 24) goes to
    ((36 - 12) * 24/48, (24 - 6) * 24/36). *)
Lemma exact_transform_is_affine_witness :
  exists q,
    scale_translate Q_arith (12, 6, 48, 36)%Q = Ok q
    /\ Qpoint_eq (apply_transforms Q_arith (build_transforms Q_arith q) (36, 24)%Q)
                 (((36 - 12) * (24 / 48))%Q, ((24 - 6) * (24 / 36))%Q).
Proof.
  assert (Hw : ~ (48 == 0)%Q) by (intros H; discriminate H).
  assert (Hh : ~ (36 == 0)%Q) by (intros H; discriminate H).
  exact (exact_transform_is_affine 12 6 48 36 36 24 Hw Hh).
Defined.

(** plain_path carries the SVG namespace: it is classified as the bare
    path is. *)
Lemma namespace_is_ignored_witness :
  has_brace "path" = false
  /\ local_name (tag plain_path) = "path"
  /\ is_drawable plain_path
     = is_drawable (Element "path" [("d", "M3 18h18v-2H3v2z")] None None []).
Proof.
  assert (H : has_brace "path" = false) by reflexivity.
  destruct (namespace_is_ignored python "http://www.w3.org/2000/svg" "path"
              [("d", "M3 18h18v-2H3v2z")] None None [] viewbox_48 H)
    as (Hl & Hd & _).
  split; [exact H |]. split; [exact Hl | exact Hd].
Defined.

(** A document of 1200 groups, one inside the other, around one path: the
    walk runs out of stack, and the unexpected error is the RecursionError. *)
Lemma extraction_diagnostics_witness :
  snd (extract_icon_elements python deep_groups_svg) = [UnexpectedError RecursionError]
  /\ fst (extract_icon_elements python deep_groups_svg) = []
  /\ collection_error RecursionError = true.
Proof.
  assert (H : snd (extract_icon_elements python deep_groups_svg)
              = [UnexpectedError RecursionError]) by (vm_compute; reflexivity).
  split; [exact H |]. split; [vm_compute; reflexivity |].
  exact (proj1 (proj2 (proj2 (extraction_diagnostics python deep_groups_svg))) _ H).
Defined.

End Instances.
